(** * Chunked traversal of a Figma document tree (src/client.ts)

    A shallow embedding of [StreamingNodeProcessor] and of the chunked
    client's [streamNodes] / [getFileInfoChunked], followed by the
    properties of the admission filter and of the traversal loop.  The
    development also covers [getFileNodes], the revision of the client
    that lists all nodes before paging (module [Listing]), the loader of
    the access token and the [get_file_data] case of the request handler
    (module [Server]).

    Conventions of the embedding:
    - JavaScript numbers that hold sizes in MB are rationals ([Q]); the
      counters ([pageSize], depths, [Set.size]) are naturals; the parsed
      cursor is an integer or NaN ([option Z]).
    - [Buffer.byteLength (JSON.stringify node)] is a parameter of the
      development: every result holds for any byte-length function.
    - The queue of [streamNodes] is a list whose head is the front of the
      JavaScript array ([shift] pops the head, [unshift] prepends).
    - The mutable fields of the processor and of the client are threaded
      explicitly: a call takes the client and returns the client it leaves.
    - The HTTP request of [getFileInfoChunked] is replaced by its outcome;
      [fileKey] and [depth] only feed that request and are left out.
    - A [string] holds the UTF-8 encoding of the JavaScript string, as
      the literals of this file do: a character above U+007F is the
      sequence of its bytes.
    - Page sizes are counts, as the data model of the program has them
      (a positive integer); what the code does with a page size that is
      negative or not whole is outside the embedding. *)

From Stdlib Require Import ZArith QArith Qminmax Lqa Ascii String DecimalString
  DecimalNat Permutation.
From stdpp Require Import base strings list gmap.

Local Open Scope string_scope.
Local Open Scope list_scope.
Local Open Scope nat_scope.

(** ** Data model *)

#[local] Unset Elimination Schemes.

(** Values of the properties of a node that the traversal never inspects. *)
Inductive JSValue : Type :=
| JNum (q : Q)
| JStr (s : string)
| JBool (b : bool)
| JArr (items : list JSValue)
| JObj (fields : list (string * JSValue)).

(** [SceneNode]: [id] and [type] are always present; [name], [visible] and
    [children] are keys that may be missing (['children' in node]); every
    other key lives in [props]. *)
Inductive SceneNode : Type :=
  mkNode {
    id : string;
    type : string;
    name : option string;
    visible : option bool;
    children : option (list SceneNode);
    props : list (string * JSValue)
  }.

#[local] Set Elimination Schemes.

Record DocumentNode : Type :=
  mkDocument { documentChildren : list SceneNode }.

Record ChunkConfig : Type :=
  mkConfig {
    pageSize : nat;
    maxMemoryMB : Q;
    nodeTypes : option (list string);
    maxDepth : option nat;
    excludeProps : option (list string);
    maxResponseSize : option Q;
    summarizeNodes : option bool
  }.

(** The processor keeps the configuration it was built with. *)
Record StreamingNodeProcessor : Type :=
  mkProcessor {
    processedNodes : gset string;
    config : ChunkConfig;
    currentSize : Q
  }.

Record ChunkResult : Type :=
  mkResult {
    nodes : list SceneNode;
    memoryUsage : Q;
    nextCursor : option string;
    hasMore : bool
  }.

(** ** JavaScript helpers *)

(** Truthiness of a number: zero is falsy. *)
Definition truthyQ (x : Q) : bool := negb (Qeq_bool x 0).

(** [a || b] where [a] is an optional number. *)
Definition orElseQ (a : option Q) (b : Q) : Q :=
  match a with
  | Some x => if truthyQ x then x else b
  | None => b
  end.

Definition truthyBool (b : option bool) : bool :=
  match b with Some true => true | _ => false end.

(** [a > b] on numbers. *)
Definition Qgtb (a b : Q) : bool := negb (Qle_bool a b).

(** [arr.includes(x)] on an array of strings. *)
Definition includes (arr : list string) (x : string) : bool :=
  bool_decide (x ∈ arr).

(** [new StreamingNodeProcessor(config)]. *)
Definition newProcessor (cfg : ChunkConfig) : StreamingNodeProcessor :=
  {| processedNodes := ∅; config := cfg; currentSize := 0 |}.

(** ** filterNodeProperties *)

Fixpoint deleteKey (k : string) (ps : list (string * JSValue)) :
  list (string * JSValue) :=
  match ps with
  | [] => []
  | (k', v) :: ps' =>
      if String.eqb k k' then deleteKey k ps' else (k', v) :: deleteKey k ps'
  end.

(** [delete filteredNode[prop]]. *)
Definition deleteProp (prop : string) (n : SceneNode) : SceneNode :=
  if String.eqb prop "name" then
    mkNode (id n) (type n) None (visible n) (children n) (props n)
  else if String.eqb prop "visible" then
    mkNode (id n) (type n) (name n) None (children n) (props n)
  else if String.eqb prop "children" then
    mkNode (id n) (type n) (name n) (visible n) None (props n)
  else
    mkNode (id n) (type n) (name n) (visible n) (children n)
           (deleteKey prop (props n)).

Fixpoint excludeLoop (excl : list string) (filteredNode : SceneNode) : SceneNode :=
  match excl with
  | [] => filteredNode
  | prop :: excl' =>
      if negb (String.eqb prop "id") && negb (String.eqb prop "type")
      then excludeLoop excl' (deleteProp prop filteredNode)
      else excludeLoop excl' filteredNode
  end.

Definition filterNodeProperties (cfg : ChunkConfig) (node : SceneNode) : SceneNode :=
  match excludeProps cfg with
  | None => node
  | Some [] => node
  | Some excl => excludeLoop excl node
  end.

(** ** summarizeNode *)

Fixpoint lookupKey (k : string) (ps : list (string * JSValue)) : option JSValue :=
  match ps with
  | [] => None
  | (k', v) :: ps' => if String.eqb k k' then Some v else lookupKey k ps'
  end.

(** ['children' in node ? node.children : []] *)
Definition childrenOrEmpty (node : SceneNode) : list SceneNode :=
  match children node with Some cs => cs | None => [] end.

(** ['key' in node ? node.key : ''] *)
Definition propOrEmpty (key : string) (node : SceneNode) : JSValue :=
  match lookupKey key (props node) with Some v => v | None => JStr "" end.

Definition defaultTextStyle : JSValue :=
  JObj [("fontFamily", JStr "Inter");
        ("fontWeight", JNum 400);
        ("fontSize", JNum 16);
        ("textAlignHorizontal", JStr "LEFT");
        ("letterSpacing", JNum 0);
        ("lineHeightUnit", JStr "PIXELS")].

Definition whiteColor : JSValue :=
  JObj [("r", JNum 1); ("g", JNum 1); ("b", JNum 1); ("a", JNum 1)].

Definition summarizeNode (node : SceneNode) : SceneNode :=
  let bName := Some (match name node with Some s => s | None => "" end) in
  let bVisible := Some (match visible node with Some b => b | None => true end) in
  let base cs ps := mkNode (id node) (type node) bName bVisible cs ps in
  let t := type node in
  if String.eqb t "FRAME" then
    base (Some (childrenOrEmpty node)) [("background", JArr [])]
  else if String.eqb t "GROUP" then
    base (Some (childrenOrEmpty node)) []
  else if String.eqb t "VECTOR" then
    base None []
  else if String.eqb t "BOOLEAN_OPERATION" then
    base (Some (childrenOrEmpty node)) [("booleanOperation", JStr "UNION")]
  else if String.eqb t "STAR" then
    base None [("pointCount", JNum 5); ("innerRadius", JNum (1 # 2))]
  else if String.eqb t "LINE" then
    base None []
  else if String.eqb t "TEXT" then
    base None [("characters", propOrEmpty "characters" node);
               ("style", defaultTextStyle)]
  else if String.eqb t "COMPONENT" then
    base (Some (childrenOrEmpty node))
         [("componentId", propOrEmpty "componentId" node)]
  else if String.eqb t "INSTANCE" then
    base (Some (childrenOrEmpty node))
         [("componentId", propOrEmpty "componentId" node)]
  else if String.eqb t "CANVAS" then
    base (Some (childrenOrEmpty node)) [("backgroundColor", whiteColor)]
  else
    base (Some (childrenOrEmpty node)) [].

(** The node as [processNode] returns it: property filter, then summary. *)
Definition transformNode (cfg : ChunkConfig) (node : SceneNode) : SceneNode :=
  let processedNode := filterNodeProperties cfg node in
  if truthyBool (summarizeNodes cfg) then summarizeNode processedNode
  else processedNode.

(** ** Cursor parsing and printing *)

(** A JavaScript number holding the parsed cursor: [None] is NaN. *)
Definition JSNumber : Type := option Z.

(** The white space that [parseInt] strips (the white space and line
    terminators of ECMAScript), by the length of its UTF-8 encoding.
    One byte: U+0009 to U+000D and U+0020. *)
Definition isWhiteSpace (c : ascii) : bool :=
  let n := nat_of_ascii c in
  ((n =? 32) || ((9 <=? n) && (n <=? 13)))%nat.

(** Two bytes: U+00A0 (C2 A0). *)
Definition isWhiteSpace2 (c1 c2 : ascii) : bool :=
  ((nat_of_ascii c1 =? 194) && (nat_of_ascii c2 =? 160))%nat.

(** Three bytes: U+1680 (E1 9A 80), U+2000 to U+200A (E2 80 80 to
    E2 80 8A), U+2028, U+2029, U+202F (E2 80 A8, A9, AF), U+205F
    (E2 81 9F), U+3000 (E3 80 80) and U+FEFF (EF BB BF). *)
Definition isWhiteSpace3 (c1 c2 c3 : ascii) : bool :=
  let n1 := nat_of_ascii c1 in
  let n2 := nat_of_ascii c2 in
  let n3 := nat_of_ascii c3 in
  (((n1 =? 225) && ((n2 =? 154) && (n3 =? 128)))
   || ((n1 =? 226)
       && (((n2 =? 128)
            && (((128 <=? n3) && (n3 <=? 138))
                || (n3 =? 168) || (n3 =? 169) || (n3 =? 175)))
           || ((n2 =? 129) && (n3 =? 159))))
   || ((n1 =? 227) && ((n2 =? 128) && (n3 =? 128)))
   || ((n1 =? 239) && ((n2 =? 187) && (n3 =? 191))))%nat.

(** Dropping the leading white space. *)
Fixpoint trimStart (s : string) : string :=
  match s with
  | String c1 s1 =>
      if isWhiteSpace c1 then trimStart s1
      else
        match s1 with
        | String c2 s2 =>
            if isWhiteSpace2 c1 c2 then trimStart s2
            else
              match s2 with
              | String c3 s3 =>
                  if isWhiteSpace3 c1 c2 c3 then trimStart s3 else s
              | EmptyString => s
              end
        | EmptyString => s
        end
  | EmptyString => EmptyString
  end.

Definition digitValue (c : ascii) : option Z :=
  let n := nat_of_ascii c in
  if ((48 <=? n) && (n <=? 57))%nat then Some (Z.of_nat (n - 48)) else None.

(** Longest prefix of decimal digits; [None] when there is none. *)
Fixpoint parseDigits (s : string) (acc : option Z) : option Z :=
  match s with
  | String c s' =>
      match digitValue c with
      | Some d => parseDigits s' (Some (10 * default 0%Z acc + d)%Z)
      | None => acc
      end
  | EmptyString => acc
  end.

(** [parseInt(s, 10)]: leading white space, an optional sign, then the
    longest run of digits; NaN when no digit follows. *)
Definition parseInt (s : string) : JSNumber :=
  let s1 := trimStart s in
  let '(sign, s2) :=
    match s1 with
    | String "-"%char r => ((-1)%Z, r)
    | String "+"%char r => (1%Z, r)
    | _ => (1%Z, s1)
    end in
  match parseDigits s2 None with
  | Some v => Some (sign * v)%Z
  | None => None
  end.

(** [n.toString()] for a count. *)
Definition toString (n : nat) : string :=
  NilZero.string_of_uint (Nat.to_uint n).

(** ** The traversal queue *)

Definition QueueEntry : Type := (SceneNode * nat)%type.

(** [nodes.map(node => ({ node, depth }))] *)
Definition entriesAt (depth : nat) (ns : list SceneNode) : list QueueEntry :=
  map (fun node => (node, depth)) ns.

(** Number of nodes of a subtree, and of all subtrees held by a queue: the
    measure that decreases at every iteration of the main loop. *)
Fixpoint nodeWeight (n : SceneNode) : nat :=
  match n with
  | mkNode _ _ _ _ cs _ =>
      S (match cs with
         | Some l => list_sum (map nodeWeight l)
         | None => 0
         end)
  end.

Definition queueWeight (queue : list QueueEntry) : nat :=
  list_sum (map (fun e => nodeWeight (fst e)) queue).

(** Pre-order, depth-first listing of a subtree, siblings in document order. *)
Fixpoint preorder (n : SceneNode) : list SceneNode :=
  match n with
  | mkNode _ _ _ _ cs _ =>
      n :: match cs with
           | Some l => flat_map preorder l
           | None => []
           end
  end.

Definition preorderAll (ns : list SceneNode) : list SceneNode :=
  flat_map preorder ns.

(** The queue once the children of [node] are put in front of it
    ([queue.unshift(...node.children.map(...))]). *)
Definition pushChildren (node : SceneNode) (depth : nat)
           (queue : list QueueEntry) : list QueueEntry :=
  entriesAt (S depth) (childrenOrEmpty node) ++ queue.

(** ** StreamingNodeProcessor *)

(** [Buffer.byteLength (JSON.stringify node)]: the serializer is outside
    the program, so the byte length of a node is an interface of the
    development. *)
Class JsonByteLength : Type := byteLength : SceneNode -> N.

Section Processor.

Context `{JsonByteLength}.

(** Size in MB. *)
Definition estimateNodeSize (node : SceneNode) : Q :=
  (inject_Z (Z.of_N (byteLength node)) / 1024 / 1024)%Q.

(** [this.config.maxResponseSize || this.config.maxMemoryMB] *)
Definition sizeLimit (cfg : ChunkConfig) : Q :=
  orElseQ (maxResponseSize cfg) (maxMemoryMB cfg).

Definition shouldProcessNode (p : StreamingNodeProcessor)
           (node : SceneNode) (depth : nat) : bool :=
  if bool_decide (id node ∈ processedNodes p) then false
  else if match nodeTypes (config p) with
          | Some ts => negb (includes ts (type node))
          | None => false
          end then false
  else if match maxDepth (config p) with
          | Some d => (d <? depth)%nat
          | None => false
          end then false
  else
    let nodeSize := estimateNodeSize node in
    if Qgtb (currentSize p + nodeSize) (sizeLimit (config p)) then false
    else true.

Definition processNode (p : StreamingNodeProcessor)
           (node : SceneNode) (depth : nat) :
  option SceneNode * StreamingNodeProcessor :=
  if negb (shouldProcessNode p node depth) then (None, p)
  else
    let processedNode := transformNode (config p) node in
    (Some processedNode,
     {| processedNodes := {[ id node ]} ∪ processedNodes p;
        config := config p;
        currentSize := (currentSize p + estimateNodeSize processedNode)%Q |}).

Definition hasReachedLimit (p : StreamingNodeProcessor) : bool :=
  Qle_bool (sizeLimit (config p)) (currentSize p).

Definition getCurrentSize (p : StreamingNodeProcessor) : Q := currentSize p.

Definition getProcessedCount (p : StreamingNodeProcessor) : nat :=
  size (processedNodes p).

End Processor.

(** ** ChunkedFigmaClient *)

Record ChunkedFigmaClient : Type :=
  mkClient {
    clientConfig : ChunkConfig;
    nodeProcessor : StreamingNodeProcessor
  }.

(** [Partial<ChunkConfig>]: [None] is a missing key. *)
Record PartialChunkConfig : Type :=
  mkPartial {
    pPageSize : option nat;
    pMaxMemoryMB : option Q;
    pNodeTypes : option (option (list string));
    pMaxDepth : option (option nat);
    pExcludeProps : option (option (list string));
    pMaxResponseSize : option (option Q);
    pSummarizeNodes : option (option bool)
  }.

Definition emptyPartial : PartialChunkConfig :=
  mkPartial None None None None None None None.

(** [x || d] on an optional count. *)
Definition orElseNat (a : option nat) (d : nat) : nat :=
  match a with
  | Some 0 => d
  | Some n => n
  | None => d
  end.

(** The constructor. *)
Definition newClient (cfg : PartialChunkConfig) : ChunkedFigmaClient :=
  let c :=
    {| pageSize := orElseNat (pPageSize cfg) 100;
       maxMemoryMB := orElseQ (pMaxMemoryMB cfg) 512;
       nodeTypes := mjoin (pNodeTypes cfg);
       maxDepth := mjoin (pMaxDepth cfg);
       excludeProps := mjoin (pExcludeProps cfg);
       maxResponseSize := Some (orElseQ (mjoin (pMaxResponseSize cfg)) 50);
       summarizeNodes := mjoin (pSummarizeNodes cfg) |} in
  {| clientConfig := c; nodeProcessor := newProcessor c |}.

(** [{ ...this.config, ...config }] *)
Definition mergeConfig (base : ChunkConfig) (upd : PartialChunkConfig) : ChunkConfig :=
  {| pageSize := default (pageSize base) (pPageSize upd);
     maxMemoryMB := default (maxMemoryMB base) (pMaxMemoryMB upd);
     nodeTypes := default (nodeTypes base) (pNodeTypes upd);
     maxDepth := default (maxDepth base) (pMaxDepth upd);
     excludeProps := default (excludeProps base) (pExcludeProps upd);
     maxResponseSize := default (maxResponseSize base) (pMaxResponseSize upd);
     summarizeNodes := default (summarizeNodes base) (pSummarizeNodes upd) |}.

(** [cursor ? parseInt(cursor, 10) : 0]: a missing or empty cursor is falsy. *)
Definition cursorIndex (cursor : option string) : JSNumber :=
  match cursor with
  | None => Some 0%Z
  | Some EmptyString => Some 0%Z
  | Some s => parseInt s
  end.

(** The skip loop: [while (currentIndex > 0 && queue.length > 0)]; the
    comparison [NaN > 0] is false. *)
Fixpoint skipToCursor (currentIndex : JSNumber) (queue : list QueueEntry) :
  list QueueEntry :=
  match queue with
  | [] => []
  | _ :: queue' =>
      match currentIndex with
      | Some i =>
          if (0 <? i)%Z then skipToCursor (Some (i - 1)%Z) queue' else queue
      | None => queue
      end
  end.

(** What the HTTP request of [getFileInfoChunked] produced: a body with
    or without a document, or an axios error. *)
Inductive FetchOutcome : Type :=
| FetchData (document : option DocumentNode)
| FetchAxiosError (message : string).

(** A call returns or throws. *)
Inductive Outcome (A : Type) : Type :=
| Returned (a : A)
| Thrown (message : string).

Arguments Returned {A} a.
Arguments Thrown {A} message.

Section Traversal.

Context `{JsonByteLength}.

(** State of the main loop of [streamNodes]. *)
Record LoopState : Type :=
  mkLoop {
    loopProcessor : StreamingNodeProcessor;
    loopQueue : list QueueEntry;
    loopResult : list SceneNode
  }.

(** One pass through the body of the main loop, after its guard; the
    boolean tells whether the body ended on [break]. *)
Definition loopBody (p : StreamingNodeProcessor) (node : SceneNode)
           (depth : nat) (queue : list QueueEntry) (result : list SceneNode) :
  LoopState * bool :=
  let '(processedNode, p') := processNode p node depth in
  let result' :=
    match processedNode with
    | Some n => result ++ [n]
    | None => result
    end in
  let queue' :=
    match children node with
    | Some cs => entriesAt (S depth) cs ++ queue
    | None => queue
    end in
  (mkLoop p' queue' result', hasReachedLimit p').

(** [while (queue.length > 0 && result.length < pageSize) { ... }].
    The fuel bounds the number of iterations; [queueWeight] of the queue
    always suffices (see [streamLoop_fuel]). *)
Fixpoint streamLoop (fuel : nat) (pageSz : nat) (s : LoopState) : LoopState :=
  match fuel with
  | 0 => s
  | S fuel' =>
      match loopQueue s with
      | [] => s
      | (node, depth) :: queue =>
          if (length (loopResult s) <? pageSz)%nat then
            let '(s', stop) :=
              loopBody (loopProcessor s) node depth queue (loopResult s) in
            if stop then s' else streamLoop fuel' pageSz s'
          else s
      end
  end.

Definition streamNodes (c : ChunkedFigmaClient) (document : DocumentNode)
           (cursor : option string) : ChunkResult * ChunkedFigmaClient :=
  let queue0 := entriesAt 0 (documentChildren document) in
  let currentIndex := cursorIndex cursor in
  let queue1 := skipToCursor currentIndex queue0 in
  let s := streamLoop (queueWeight queue1) (pageSize (clientConfig c))
                      (mkLoop (nodeProcessor c) queue1 []) in
  let more := 0 <? length (loopQueue s) in
  ({| nodes := loopResult s;
      memoryUsage := getCurrentSize (loopProcessor s);
      nextCursor :=
        if more then Some (toString (getProcessedCount (loopProcessor s)))
        else None;
      hasMore := more |},
   {| clientConfig := clientConfig c; nodeProcessor := loopProcessor s |}).

Definition getFileInfoChunked (c : ChunkedFigmaClient) (response : FetchOutcome)
           (cursor : option string) (cfg : option PartialChunkConfig) :
  Outcome ChunkResult * ChunkedFigmaClient :=
  let c1 :=
    match cfg with
    | Some upd =>
        let merged := mergeConfig (clientConfig c) upd in
        {| clientConfig := merged; nodeProcessor := newProcessor merged |}
    | None => c
    end in
  match response with
  | FetchAxiosError msg => (Thrown ("Figma API error: " ++ msg)%string, c1)
  | FetchData None => (Thrown "Invalid response from Figma API", c1)
  | FetchData (Some document) =>
      let '(r, c2) := streamNodes c1 document cursor in
      (Returned r, c2)
  end.

End Traversal.

(** ** Budgets that admit a whole list of nodes *)

Section Budget.

Context `{JsonByteLength}.

(** What admitting [node] asks of the budget: the size check reads the
    estimate of the node as fetched, the accumulator then takes the
    estimate of the node as returned. *)
Definition admissionCost (cfg : ChunkConfig) (node : SceneNode) : Q :=
  Qmax (estimateNodeSize node) (estimateNodeSize (transformNode cfg node)).

Definition totalCost (cfg : ChunkConfig) (ns : list SceneNode) : Q :=
  foldr (fun node acc => (admissionCost cfg node + acc)%Q) 0%Q ns.

End Budget.

(** The nodes a queue stands for, in the order the loop reaches them. *)
Definition preorderQueue (queue : list QueueEntry) : list SceneNode :=
  preorderAll (map fst queue).

(** ** Reading a node by key *)

(** What [node[key]] can hold. *)
Inductive PropValue : Type :=
| PString (s : string)
| PBool (b : bool)
| PNodes (ns : list SceneNode)
| PJson (v : JSValue).

(** [node[key]]; [None] when the key is missing, that is when
    ['key' in node] is false. *)
Definition getProp (key : string) (n : SceneNode) : option PropValue :=
  if String.eqb key "id" then Some (PString (id n))
  else if String.eqb key "type" then Some (PString (type n))
  else if String.eqb key "name" then PString <$> name n
  else if String.eqb key "visible" then PBool <$> visible n
  else if String.eqb key "children" then PNodes <$> children n
  else PJson <$> lookupKey key (props n).

(** The keys [filterNodeProperties] deletes: those of the exclusion list
    other than [id] and [type]. *)
Definition isExcluded (cfg : ChunkConfig) (key : string) : bool :=
  bool_decide (key ∈ default [] (excludeProps cfg))
  && negb (String.eqb key "id") && negb (String.eqb key "type").

(** The types whose summary carries no [children]. *)
Definition childlessSummary (t : string) : bool :=
  String.eqb t "VECTOR" || String.eqb t "STAR" || String.eqb t "LINE"
  || String.eqb t "TEXT".

(** Every key a summary can carry. *)
Definition summaryKeys : list string :=
  ["id"; "type"; "name"; "visible"; "children"; "background";
   "booleanOperation"; "pointCount"; "innerRadius"; "characters"; "style";
   "componentId"; "backgroundColor"].

(** ** Nodes with their depth *)

(** Pre-order listing of a subtree with the depth of every node, the root
    being at [depth]. *)
Fixpoint preorderAt (depth : nat) (n : SceneNode) {struct n} : list QueueEntry :=
  match n with
  | mkNode _ _ _ _ cs _ =>
      (n, depth) :: match cs with
                    | Some l => flat_map (preorderAt (S depth)) l
                    | None => []
                    end
  end.

(** Every node a queue stands for, with its depth. *)
Definition expandQueue (queue : list QueueEntry) : list QueueEntry :=
  flat_map (fun e => preorderAt (snd e) (fst e)) queue.

(** Every node of a document with its depth, top-level children at 0. *)
Definition documentEntries (document : DocumentNode) : list QueueEntry :=
  expandQueue (entriesAt 0 (documentChildren document)).

(** The type and depth checks of [shouldProcessNode] on a queue entry. *)
Definition passesFilters (cfg : ChunkConfig) (e : QueueEntry) : Prop :=
  (forall ts, nodeTypes cfg = Some ts -> type (fst e) ∈ ts)
  /\ (forall d, maxDepth cfg = Some d -> snd e <= d).

Section Sizes.

Context `{JsonByteLength}.

(** Sum of the estimated sizes of a list of nodes. *)
Definition sumSizes (ns : list SceneNode) : Q :=
  foldr (fun n acc => (estimateNodeSize n + acc)%Q) 0%Q ns.

End Sizes.

(** ** getFileNodes *)

(** [ids.join(',')] *)
Definition joinComma (ids : list string) : string := String.concat "," ids.

(** [const chunkSize = 50] *)
Definition chunkSize : nat := 50.

(** The requests are the consecutive slices of [chunkSize] ids. *)
Definition sliced (ids : list string) (requests : list (list string)) : Prop :=
  forall j ch, requests !! j = Some ch ->
               ch = take chunkSize (drop (chunkSize * j) ids)
               /\ chunkSize * j < length ids.

Section FileNodes.

(** The payload of a node in a response of the nodes endpoint. *)
Context {V : Type}.

(** The request [GET /files/:key/nodes] for a value of [params.ids]: the
    [nodes] object of the response body, or the error it throws. *)
Variable fetchNodes : string -> Outcome (gmap string V).

(** The [for] loop of [getFileNodes], from index [i]. Besides the chunks
    it returns the lists of ids it asked for, in order. The loop runs at
    most once per id, which bounds the fuel. *)
Fixpoint fetchChunks (fuel i : nat) (p : StreamingNodeProcessor)
         (ids : list string) (chunks : list (gmap string V))
         (requests : list (list string)) :
  Outcome (list (gmap string V)) * list (list string) :=
  match fuel with
  | 0 => (Returned chunks, requests)
  | S fuel' =>
      if i <? length ids then
        if hasReachedLimit p then
          (Thrown "Memory limit exceeded while processing nodes", requests)
        else
          let chunkIds := take chunkSize (drop i ids) in
          match fetchNodes (joinComma chunkIds) with
          | Thrown msg => (Thrown msg, requests ++ [chunkIds])
          | Returned data =>
              fetchChunks fuel' (i + chunkSize) p ids (chunks ++ [data])
                          (requests ++ [chunkIds])
          end
      else (Returned chunks, requests)
  end.

(** [chunks.reduce((acc, chunk) => ({ ...acc, ...chunk.nodes }), {})]:
    a key of the chunk replaces the same key of the accumulator. *)
Definition mergeChunks (chunks : list (gmap string V)) : gmap string V :=
  foldl (fun acc chunk => chunk ∪ acc) ∅ chunks.

Definition getFileNodes (c : ChunkedFigmaClient) (ids : list string) :
  Outcome (gmap string V) * list (list string) :=
  let '(r, requests) :=
    fetchChunks (length ids) 0 (nodeProcessor c) ids [] [] in
  (match r with
   | Returned chunks => Returned (mergeChunks chunks)
   | Thrown msg => Thrown msg
   end, requests).

End FileNodes.

(** ** The client that lists all nodes first (the other revision in
    client.ts) *)

(** [n.toString()] for an integer index. *)
Definition toStringZ (z : Z) : string :=
  if (z <? 0)%Z then ("-" ++ toString (Z.to_nat (- z)))%string
  else toString (Z.to_nat z).

(** What reading [node.id] of [undefined] throws. *)
Definition undefinedIdError : string :=
  "Cannot read properties of undefined (reading 'id')".

Module Listing.

Record ChunkConfig : Type :=
  mkConfig {
    pageSize : nat;
    maxMemoryMB : Q;
    nodeTypes : option (list string)
  }.

Record ChunkedFigmaClient : Type :=
  mkClient {
    config : ChunkConfig;
    processedNodes : gset string
  }.

(** The constructor. *)
Definition newClient (pPageSize : option nat) (pMaxMemoryMB : option Q)
           (pNodeTypes : option (list string)) : ChunkedFigmaClient :=
  {| config := {| pageSize := orElseNat pPageSize 100;
                  maxMemoryMB := orElseQ pMaxMemoryMB 512;
                  nodeTypes := pNodeTypes |};
     processedNodes := ∅ |}.

Definition shouldProcessNode (c : ChunkedFigmaClient) (node : SceneNode) : bool :=
  if bool_decide (id node ∈ processedNodes c) then false
  else if match nodeTypes (config c) with
          | Some ts => negb (includes ts (type node))
          | None => false
          end then false
  else true.

(** The loop of [getAllNodes]: children go to the back of the queue.
    Every iteration takes one node off the queue for good, so the number
    of nodes of the document bounds the fuel. *)
Fixpoint allNodesLoop (fuel : nat) (queue allNodes : list SceneNode) :
  list SceneNode :=
  match fuel with
  | 0 => allNodes
  | S fuel' =>
      match queue with
      | [] => allNodes
      | node :: queue' =>
          allNodesLoop fuel' (queue' ++ childrenOrEmpty node)
                       (allNodes ++ [node])
      end
  end.

Definition getAllNodes (document : DocumentNode) : list SceneNode :=
  allNodesLoop (list_sum (map nodeWeight (documentChildren document)))
               (documentChildren document) [].

Section Heap.

(** [process.memoryUsage().heapUsed], in bytes, at each reading since
    the process started: the heap is outside the program. *)
Variable heapUsed : nat -> N.

Definition heapMB (clock : nat) : Q :=
  (inject_Z (Z.of_N (heapUsed clock)) / 1024 / 1024)%Q.

(** [heapUsed < this.config.maxMemoryMB], at reading [clock]. *)
Definition checkMemoryUsage (c : ChunkedFigmaClient) (clock : nat) : bool :=
  negb (Qle_bool (maxMemoryMB (config c)) (heapMB clock)).

(** The loop of [processNodeChunk]; [clock] counts the readings of the
    heap. The index grows at every iteration and a negative index throws
    at once, so one more than the number of nodes bounds the fuel. *)
Fixpoint chunkLoop (fuel : nat) (nodes : list SceneNode) (currentIndex : Z)
         (result : list SceneNode) (c : ChunkedFigmaClient) (clock : nat) :
  Outcome (Z * list SceneNode) * ChunkedFigmaClient * nat :=
  match fuel with
  | 0 => (Returned (currentIndex, result), c, clock)
  | S fuel' =>
      if negb (currentIndex <? Z.of_nat (length nodes))%Z
      then (Returned (currentIndex, result), c, clock)
      else if negb (length result <? pageSize (config c))
      then (Returned (currentIndex, result), c, clock)
      else if negb (checkMemoryUsage c clock)
      then (Returned (currentIndex, result), c, S clock)
      else
        match (if (0 <=? currentIndex)%Z
               then nodes !! Z.to_nat currentIndex else None) with
        | None => (Thrown undefinedIdError, c, S clock)
        | Some node =>
            if shouldProcessNode c node then
              chunkLoop fuel' nodes (currentIndex + 1)%Z (result ++ [node])
                        {| config := config c;
                           processedNodes := {[ id node ]} ∪ processedNodes c |}
                        (S clock)
            else
              chunkLoop fuel' nodes (currentIndex + 1)%Z result c (S clock)
        end
  end.

Definition processNodeChunk (c : ChunkedFigmaClient) (clock : nat)
           (allNodes : list SceneNode) (startIndex : JSNumber) :
  Outcome ChunkResult * ChunkedFigmaClient * nat :=
  match startIndex with
  | None =>
      (Returned {| nodes := [];
                   memoryUsage := heapMB clock;
                   nextCursor := None;
                   hasMore := false |}, c, S clock)
  | Some start =>
      match chunkLoop (S (length allNodes)) allNodes start [] c clock with
      | (Thrown msg, c', clock') => (Thrown msg, c', clock')
      | (Returned (currentIndex, result), c', clock') =>
          let more := (currentIndex <? Z.of_nat (length allNodes))%Z in
          (Returned {| nodes := result;
                       memoryUsage := heapMB clock';
                       nextCursor :=
                         if more then Some (toStringZ currentIndex) else None;
                       hasMore := more |}, c', S clock')
      end
  end.

Definition getFileInfoChunked (c : ChunkedFigmaClient) (clock : nat)
           (response : FetchOutcome) (cursor : option string) :
  Outcome ChunkResult * ChunkedFigmaClient * nat :=
  match response with
  | FetchAxiosError msg => (Thrown ("Figma API error: " ++ msg)%string, c, clock)
  | FetchData None => (Thrown "Invalid response from Figma API", c, clock)
  | FetchData (Some document) =>
      processNodeChunk c clock (getAllNodes document) (cursorIndex cursor)
  end.

End Heap.

End Listing.

(** ** Loading the access token *)

(** [s.split(sep)] for a separator of one character. *)
Fixpoint splitOn (sep : ascii) (s : string) : list string :=
  match s with
  | EmptyString => [EmptyString]
  | String c s' =>
      if Ascii.eqb c sep then EmptyString :: splitOn sep s'
      else match splitOn sep s' with
           | cur :: rest => String c cur :: rest
           | [] => [String c EmptyString]
           end
  end.

(** [s.includes(c)] for a character. *)
Fixpoint hasChar (c : ascii) (s : string) : bool :=
  match s with
  | EmptyString => false
  | String c' s' => Ascii.eqb c' c || hasChar c s'
  end.

(** [configArg.split('=')[1]] *)
Definition configPathOf (configArg : string) : option string :=
  splitOn "="%char configArg !! 1.

(** A string that is not empty, as a truthy value. *)
Definition nonEmpty (s : option string) : option string :=
  match s with
  | Some EmptyString => None
  | _ => s
  end.

Definition tokenRequired : string :=
  "FIGMA_ACCESS_TOKEN is required. Provide it via environment variable or config file.".

Section Loader.

(** Reading the file at a path, parsing it as JSON and taking
    [mcpServers?.figma?.env?.FIGMA_ACCESS_TOKEN]: [None] when reading or
    parsing throws or the value is missing. The file system is outside
    the program. *)
Variable tokenInFile : string -> option string.

(** [loadConfig], given [process.argv] and
    [process.env.FIGMA_ACCESS_TOKEN]; it returns the token. *)
Definition loadConfig (argv : list string) (envToken : option string) :
  Outcome string :=
  let fromEnv :=
    match nonEmpty envToken with
    | Some token => Returned token
    | None => Thrown tokenRequired
    end in
  match find (String.prefix "--config=") argv with
  | Some configArg =>
      match nonEmpty (configPathOf configArg ≫= tokenInFile) with
      | Some token => Returned token
      | None => fromEnv
      end
  | None => fromEnv
  end.

End Loader.

(** ** The request handler of the server, for [get_file_data] *)

Module Server.

(** The arguments of the tool as the request carries them. *)
Record GetFileDataArgs : Type :=
  mkArgs {
    file_key : option string;
    pageSize : option nat;
    maxMemoryMB : option Q;
    nodeTypes : option (list string);
    cursor : option string;
    depth : option nat
  }.

Inductive ErrorCode : Type := InvalidParams | MethodNotFound.

(** What the handler does with a request: a content made of the chunk
    result, a content that is an error text ([isError: true]), or an
    [McpError] thrown. *)
Inductive HandlerOutcome : Type :=
| ToolContent (r : ChunkResult)
| ToolErrorText (text : string)
| McpErrorThrown (code : ErrorCode) (message : string).

Section Handler.

Context `{JsonByteLength}.

(** The [get_file_data] case of the handler, with its [catch]; the
    outcome of the HTTP request the client makes is given. *)
Definition handleGetFileData (c : ChunkedFigmaClient) (args : GetFileDataArgs)
           (response : FetchOutcome) : HandlerOutcome * ChunkedFigmaClient :=
  match nonEmpty (file_key args) with
  | None => (McpErrorThrown InvalidParams "file_key is required", c)
  | Some _ =>
      match getFileInfoChunked c response (cursor args) None with
      | (Returned r, c') => (ToolContent r, c')
      | (Thrown message, c') =>
          (ToolErrorText ("Figma API error: " ++ message)%string, c')
      end
  end.

(** The server handles the requests one after the other on the client
    it built when it started. *)
Fixpoint serve (c : ChunkedFigmaClient)
         (requests : list (GetFileDataArgs * FetchOutcome)) :
  list HandlerOutcome * ChunkedFigmaClient :=
  match requests with
  | [] => ([], c)
  | (args, response) :: requests' =>
      let '(out, c') := handleGetFileData c args response in
      let '(outs, c'') := serve c' requests' in
      (out :: outs, c'')
  end.

End Handler.

(** The nodes a request was answered with. *)
Definition answeredNodes (out : HandlerOutcome) : list SceneNode :=
  match out with
  | ToolContent r => nodes r
  | _ => []
  end.

End Server.

(** ** Sample data used to exercise the statements *)

Definition leaf (i t : string) : SceneNode := mkNode i t None None None [].

Definition branch (i t : string) (cs : list SceneNode) : SceneNode :=
  mkNode i t None None (Some cs) [].

(** Every node serializes to one mebibyte. *)
Definition oneMB : JsonByteLength := fun _ => 1048576%N.

(** Every node serializes to two hundred mebibytes. *)
Definition twoHundredMB : JsonByteLength := fun _ => 209715200%N.

(** A client built with the defaults: pages of 100 nodes, 512 MB of
    memory, 50 MB of response. *)
Definition defaultClient : ChunkedFigmaClient := newClient emptyPartial.

(** The same with pages of two nodes. *)
Definition pagedClient : ChunkedFigmaClient :=
  newClient (mkPartial (Some 2) None None None None None None).

(** The same with half a megabyte of response. *)
Definition tightClient : ChunkedFigmaClient :=
  newClient (mkPartial None None None None None (Some (Some (1 # 2)%Q)) None).

(** A client whose memory limit (128 MB) is below its response limit
    (512 MB). *)
Definition crossedClient : ChunkedFigmaClient :=
  newClient (mkPartial None (Some 128%Q) None None None (Some (Some 512%Q)) None).

Definition threeFrames : DocumentNode :=
  mkDocument [leaf "1:1" "FRAME"; leaf "1:2" "FRAME"; leaf "1:3" "FRAME"].

Definition singleText : DocumentNode := mkDocument [leaf "2:1" "TEXT"].

Definition nestedDocument : DocumentNode :=
  mkDocument
    [branch "0:1" "CANVAS"
       [branch "1:1" "FRAME" [leaf "1:2" "TEXT"; leaf "1:3" "VECTOR"];
        leaf "1:4" "LINE"];
     branch "0:2" "CANVAS" [leaf "2:1" "STAR"]].

(** A setting of the page size alone, as a later call may pass it. *)
Definition pageSizeOnly (n : nat) : PartialChunkConfig :=
  mkPartial (Some n) None None None None None None.

(** The nodes of a call that returned; none for a call that threw. *)
Definition returnedNodes (o : Outcome ChunkResult) : list SceneNode :=
  match o with
  | Returned r => nodes r
  | Thrown _ => []
  end.

(** A client that lets TEXT and FRAME nodes through. *)
Definition typedClient : ChunkedFigmaClient :=
  newClient (mkPartial None None (Some (Some ["TEXT"; "FRAME"])) None None
                       None None).

(** A client that stops at depth 1. *)
Definition shallowClient : ChunkedFigmaClient :=
  newClient (mkPartial None None None (Some (Some 1)) None None None).

(** A client with two megabytes of response. *)
Definition twoMBClient : ChunkedFigmaClient :=
  newClient (mkPartial None None None None None (Some (Some 2%Q)) None).

(** The default client after it has read the nested sample document. *)
Definition seasonedClient : ChunkedFigmaClient :=
  snd (streamNodes (H := oneMB) defaultClient nestedDocument None).

(** A nodes endpoint that answers each request with one entry, keyed by
    the ids it was asked for. *)
Definition echoFetch (param : string) : Outcome (gmap string nat) :=
  Returned {[ param := String.length param ]}.

(** A nodes endpoint that is down. *)
Definition downFetch (param : string) : Outcome (gmap string nat) :=
  Thrown "Network Error".

(** One hundred and twenty ids. *)
Definition manyIds : list string := map toString (seq 0 120).

(** A heap that stays empty. *)
Definition calmHeap (clock : nat) : N := 0%N.

(** The configuration of a listing client with pages of two nodes. *)
Definition listingConfig : Listing.ChunkConfig :=
  Listing.config (Listing.newClient (Some 2) None None).

(** A token file at one path only. *)
Definition oneTokenFile (path : string) : option string :=
  if String.eqb path "/etc/figma.json" then Some "figd_sample" else None.

(** The byte lengths of the two JSON texts that a text node with only
    an id and a type gives: 26 bytes as fetched, 202 bytes as a summary
    (name, visible, characters and the default style added). *)
Definition bareTextBytes : JsonByteLength :=
  fun node => match name node with None => 26%N | Some _ => 202%N end.

(** A client that returns summaries, with a hundred bytes of response. *)
Definition summaryClient : ChunkedFigmaClient :=
  newClient (mkPartial None None None None None
                       (Some (Some (100 # 1048576)%Q)) (Some (Some true))).

Definition bareText : DocumentNode := mkDocument [leaf "1:1" "TEXT"].

(** ** Numbers *)

Lemma Qgtb_false (a b : Q) : Qgtb a b = false <-> (a <= b)%Q.
Proof.
  unfold Qgtb. rewrite negb_false_iff. apply Qle_bool_iff.
Qed.

Lemma Qgtb_true (a b : Q) : Qgtb a b = true <-> (b < a)%Q.
Proof.
  unfold Qgtb. rewrite negb_true_iff. split.
  - intros Hb. apply Qnot_le_lt. intros Hle.
    apply Qle_bool_iff in Hle. congruence.
  - intros Hlt. destruct (Qle_bool a b) eqn:E; [|reflexivity].
    apply Qle_bool_iff in E. exfalso. apply (Qlt_not_le _ _ Hlt E).
Qed.

Lemma Qle_bool_false (a b : Q) : Qle_bool a b = false <-> (b < a)%Q.
Proof.
  rewrite <- (Qgtb_true a b). unfold Qgtb. now rewrite negb_true_iff.
Qed.

Section ProcessorFacts.

Context `{JsonByteLength}.

Lemma estimateNodeSize_nonneg (node : SceneNode) :
  (0 <= estimateNodeSize node)%Q.
Proof.
  unfold estimateNodeSize, Qdiv, Qle. simpl. lia.
Qed.

(** [shouldProcessNode] is the conjunction of its four checks. *)
Lemma shouldProcessNode_true (p : StreamingNodeProcessor) (node : SceneNode)
      (depth : nat) :
  shouldProcessNode p node depth = true <->
  (id node ∉ processedNodes p)
  /\ (forall ts, nodeTypes (config p) = Some ts -> type node ∈ ts)
  /\ (forall d, maxDepth (config p) = Some d -> depth <= d)
  /\ (currentSize p + estimateNodeSize node <= sizeLimit (config p))%Q.
Proof.
  unfold shouldProcessNode, includes.
  case_bool_decide as Hid.
  { split; [discriminate | intros [Hn _]; contradiction]. }
  destruct (nodeTypes (config p)) as [ts|] eqn:Ety.
  - case_bool_decide as Hty; simpl.
    + destruct (maxDepth (config p)) as [d|] eqn:Ed.
      * destruct (Nat.ltb_spec d depth) as [Hlt|Hge].
        { split; [discriminate|]. intros (_ & _ & Hd & _).
          specialize (Hd d eq_refl). lia. }
        destruct (Qgtb _ _) eqn:Eq.
        { split; [discriminate|]. intros (_ & _ & _ & Hle).
          apply Qgtb_false in Hle. congruence. }
        split; [|reflexivity]. intros _. apply Qgtb_false in Eq.
        repeat split; auto; intros ? [= <-]; auto.
      * destruct (Qgtb _ _) eqn:Eq.
        { split; [discriminate|]. intros (_ & _ & _ & Hle).
          apply Qgtb_false in Hle. congruence. }
        split; [|reflexivity]. intros _. apply Qgtb_false in Eq.
        repeat split; auto; try discriminate. intros ? [= <-]; auto.
    + split; [discriminate|]. intros (_ & Ht & _).
      specialize (Ht ts eq_refl). contradiction.
  - destruct (maxDepth (config p)) as [d|] eqn:Ed.
    + destruct (Nat.ltb_spec d depth) as [Hlt|Hge].
      { split; [discriminate|]. intros (_ & _ & Hd & _).
        specialize (Hd d eq_refl). lia. }
      destruct (Qgtb _ _) eqn:Eq.
      { split; [discriminate|]. intros (_ & _ & _ & Hle).
        apply Qgtb_false in Hle. congruence. }
      split; [|reflexivity]. intros _. apply Qgtb_false in Eq.
      repeat split; auto; try discriminate. intros ? [= <-]; auto.
    + destruct (Qgtb _ _) eqn:Eq.
      { split; [discriminate|]. intros (_ & _ & _ & Hle).
        apply Qgtb_false in Hle. congruence. }
      split; [|reflexivity]. intros _. apply Qgtb_false in Eq.
      repeat split; auto; discriminate.
Qed.

Lemma processNode_reject (p : StreamingNodeProcessor) (node : SceneNode)
      (depth : nat) :
  shouldProcessNode p node depth = false ->
  processNode p node depth = (None, p).
Proof. intros E. unfold processNode. now rewrite E. Qed.

Lemma processNode_admit (p : StreamingNodeProcessor) (node : SceneNode)
      (depth : nat) :
  shouldProcessNode p node depth = true ->
  processNode p node depth =
    (Some (transformNode (config p) node),
     mkProcessor ({[ id node ]} ∪ processedNodes p) (config p)
       (currentSize p + estimateNodeSize (transformNode (config p) node))%Q).
Proof. intros E. unfold processNode. now rewrite E. Qed.

(** Whatever [processNode] answers, the configuration stays and the
    dedup set and the accumulator only grow. *)
Lemma processNode_config (p : StreamingNodeProcessor) (node : SceneNode)
      (depth : nat) :
  config (snd (processNode p node depth)) = config p.
Proof. unfold processNode. now destruct (shouldProcessNode p node depth). Qed.

Lemma processNode_processed_mono (p : StreamingNodeProcessor)
      (node : SceneNode) (depth : nat) :
  processedNodes p ⊆ processedNodes (snd (processNode p node depth)).
Proof.
  unfold processNode. destruct (shouldProcessNode p node depth); simpl;
    set_solver.
Qed.

Lemma processNode_size_mono (p : StreamingNodeProcessor) (node : SceneNode)
      (depth : nat) :
  (currentSize p <= currentSize (snd (processNode p node depth)))%Q.
Proof.
  unfold processNode. destruct (shouldProcessNode p node depth); simpl.
  - pose proof (estimateNodeSize_nonneg (transformNode (config p) node)). lra.
  - lra.
Qed.

End ProcessorFacts.

(** ** The transforms keep the identifier *)

Lemma deleteProp_id (prop : string) (n : SceneNode) :
  id (deleteProp prop n) = id n.
Proof.
  unfold deleteProp.
  repeat match goal with |- context [if ?b then _ else _] => destruct b end;
    reflexivity.
Qed.

Lemma excludeLoop_id (excl : list string) (n : SceneNode) :
  id (excludeLoop excl n) = id n.
Proof.
  revert n. induction excl as [|prop excl IH]; intros n; simpl; [reflexivity|].
  destruct (negb (String.eqb prop "id") && negb (String.eqb prop "type")).
  - rewrite IH. apply deleteProp_id.
  - apply IH.
Qed.

Lemma filterNodeProperties_id (cfg : ChunkConfig) (n : SceneNode) :
  id (filterNodeProperties cfg n) = id n.
Proof.
  unfold filterNodeProperties.
  destruct (excludeProps cfg) as [[|prop excl]|]; try reflexivity.
  apply excludeLoop_id.
Qed.

Lemma summarizeNode_id (n : SceneNode) : id (summarizeNode n) = id n.
Proof.
  unfold summarizeNode.
  repeat match goal with |- context [if ?b then _ else _] => destruct b end;
    reflexivity.
Qed.

Lemma transformNode_id (cfg : ChunkConfig) (n : SceneNode) :
  id (transformNode cfg n) = id n.
Proof.
  unfold transformNode. destruct (truthyBool (summarizeNodes cfg)).
  - rewrite summarizeNode_id. apply filterNodeProperties_id.
  - apply filterNodeProperties_id.
Qed.

(** Without an exclusion list and without summaries the node is returned
    as it is. *)
Lemma transformNode_plain (cfg : ChunkConfig) (n : SceneNode) :
  excludeProps cfg = None -> truthyBool (summarizeNodes cfg) = false ->
  transformNode cfg n = n.
Proof.
  intros He Hs. unfold transformNode, filterNodeProperties.
  now rewrite Hs, He.
Qed.

(** ** The queue measure *)

Lemma nodeWeight_unfold (n : SceneNode) :
  nodeWeight n = S (list_sum (map nodeWeight (childrenOrEmpty n))).
Proof. destruct n as [i t nm v [cs|] ps]; reflexivity. Qed.

Lemma preorder_unfold (n : SceneNode) :
  preorder n = n :: preorderAll (childrenOrEmpty n).
Proof. destruct n as [i t nm v [cs|] ps]; reflexivity. Qed.

Lemma queueWeight_cons (e : QueueEntry) (queue : list QueueEntry) :
  queueWeight (e :: queue) = nodeWeight (fst e) + queueWeight queue.
Proof. reflexivity. Qed.

Lemma queueWeight_app (q1 q2 : list QueueEntry) :
  queueWeight (q1 ++ q2) = queueWeight q1 + queueWeight q2.
Proof.
  unfold queueWeight. rewrite map_app. apply list_sum_app.
Qed.

Lemma queueWeight_entriesAt (depth : nat) (ns : list SceneNode) :
  queueWeight (entriesAt depth ns) = list_sum (map nodeWeight ns).
Proof.
  unfold queueWeight, entriesAt. rewrite map_map. reflexivity.
Qed.

Lemma queueWeight_pushChildren (node : SceneNode) (depth : nat)
      (queue : list QueueEntry) :
  S (queueWeight (pushChildren node depth queue)) =
  queueWeight ((node, depth) :: queue).
Proof.
  unfold pushChildren. rewrite queueWeight_app, queueWeight_entriesAt.
  rewrite queueWeight_cons. simpl fst. rewrite nodeWeight_unfold. reflexivity.
Qed.

(** ** The main loop *)

Section LoopFacts.

Context `{JsonByteLength}.

Lemma loopBody_eq (p : StreamingNodeProcessor) (node : SceneNode)
      (depth : nat) (queue : list QueueEntry) (result : list SceneNode) :
  loopBody p node depth queue result =
    (mkLoop (snd (processNode p node depth))
            (pushChildren node depth queue)
            (match fst (processNode p node depth) with
             | Some n => result ++ [n]
             | None => result
             end),
     hasReachedLimit (snd (processNode p node depth))).
Proof.
  unfold loopBody, pushChildren, childrenOrEmpty.
  destruct (processNode p node depth) as [o p'].
  destruct (children node); reflexivity.
Qed.

Lemma streamLoop_nil (fuel pageSz : nat) (p : StreamingNodeProcessor)
      (result : list SceneNode) :
  streamLoop fuel pageSz (mkLoop p [] result) = mkLoop p [] result.
Proof. destruct fuel; reflexivity. Qed.

Lemma streamLoop_full (fuel pageSz : nat) (s : LoopState) :
  pageSz <= length (loopResult s) -> streamLoop fuel pageSz s = s.
Proof.
  intros Hfull. destruct fuel; [reflexivity|]. simpl.
  destruct (loopQueue s) as [|[node depth] queue]; [reflexivity|].
  destruct (Nat.ltb_spec (length (loopResult s)) pageSz); [lia|reflexivity].
Qed.

Lemma streamLoop_step (fuel pageSz : nat) (p : StreamingNodeProcessor)
      (node : SceneNode) (depth : nat) (queue : list QueueEntry)
      (result : list SceneNode) :
  length result < pageSz ->
  streamLoop (S fuel) pageSz (mkLoop p ((node, depth) :: queue) result) =
    if snd (loopBody p node depth queue result)
    then fst (loopBody p node depth queue result)
    else streamLoop fuel pageSz (fst (loopBody p node depth queue result)).
Proof.
  intros Hlt. simpl.
  destruct (Nat.ltb_spec (length result) pageSz); [|lia].
  destruct (loopBody p node depth queue result) as [s' stop]. reflexivity.
Qed.

(** Anything the loop body preserves under the loop guard holds when the
    loop ends. *)
Lemma streamLoop_invariant (pageSz : nat) (Inv : LoopState -> Prop) :
  (forall p node depth queue result,
      Inv (mkLoop p ((node, depth) :: queue) result) ->
      length result < pageSz ->
      Inv (fst (loopBody p node depth queue result))) ->
  forall fuel s, Inv s -> Inv (streamLoop fuel pageSz s).
Proof.
  intros Hbody fuel. induction fuel as [|fuel IH]; intros s Hs; [exact Hs|].
  destruct s as [p [|[node depth] queue] result]; [exact Hs|].
  destruct (Nat.lt_ge_cases (length result) pageSz) as [Hlt|Hge].
  - rewrite streamLoop_step by exact Hlt.
    specialize (Hbody _ _ _ _ _ Hs Hlt).
    destruct (snd (loopBody p node depth queue result)); auto.
  - rewrite streamLoop_full; [exact Hs | exact Hge].
Qed.

Lemma queueWeight_zero (queue : list QueueEntry) :
  queueWeight queue = 0 -> queue = [].
Proof.
  destruct queue as [|[node depth] queue]; [reflexivity|].
  rewrite queueWeight_cons. simpl fst. rewrite nodeWeight_unfold. lia.
Qed.

(** Every iteration lowers [queueWeight], so the loop needs no more fuel
    than the weight of its queue. *)
Lemma streamLoop_fuel_eq (pageSz : nat) :
  forall fuel1 fuel2 s,
    queueWeight (loopQueue s) <= fuel1 ->
    queueWeight (loopQueue s) <= fuel2 ->
    streamLoop fuel1 pageSz s = streamLoop fuel2 pageSz s.
Proof.
  induction fuel1 as [|fuel1 IH]; intros fuel2 s H1 H2.
  - assert (loopQueue s = []) as Hq by (apply queueWeight_zero; lia).
    destruct s as [p q r]. simpl in Hq. subst q.
    now rewrite !streamLoop_nil.
  - destruct s as [p [|[node depth] queue] result].
    { now rewrite !streamLoop_nil. }
    simpl loopQueue in H1, H2.
    rewrite <- queueWeight_pushChildren in H1, H2.
    destruct fuel2 as [|fuel2]; [lia|].
    destruct (Nat.lt_ge_cases (length result) pageSz) as [Hlt|Hge].
    + rewrite !streamLoop_step by exact Hlt.
      destruct (snd (loopBody p node depth queue result)); [reflexivity|].
      apply IH; rewrite loopBody_eq; simpl; lia.
    + rewrite !streamLoop_full by exact Hge. reflexivity.
Qed.

Lemma streamLoop_fuel (pageSz fuel : nat) (s : LoopState) :
  queueWeight (loopQueue s) <= fuel ->
  streamLoop fuel pageSz s = streamLoop (queueWeight (loopQueue s)) pageSz s.
Proof. intros Hf. apply streamLoop_fuel_eq; [exact Hf | lia]. Qed.

(** With that much fuel the loop stops for one of the reasons the source
    gives: the queue is empty, the page is full, or the limit is reached. *)
Lemma streamLoop_exit (pageSz : nat) :
  forall fuel s,
    queueWeight (loopQueue s) <= fuel ->
    loopQueue (streamLoop fuel pageSz s) = []
    \/ pageSz <= length (loopResult (streamLoop fuel pageSz s))
    \/ hasReachedLimit (loopProcessor (streamLoop fuel pageSz s)) = true.
Proof.
  induction fuel as [|fuel IH]; intros s Hf.
  - left. simpl. apply queueWeight_zero. lia.
  - destruct s as [p [|[node depth] queue] result].
    { left. now rewrite streamLoop_nil. }
    simpl loopQueue in Hf. rewrite <- queueWeight_pushChildren in Hf.
    destruct (Nat.lt_ge_cases (length result) pageSz) as [Hlt|Hge].
    + rewrite streamLoop_step by exact Hlt.
      destruct (snd (loopBody p node depth queue result)) eqn:Estop.
      * right. right. rewrite loopBody_eq in Estop |- *. exact Estop.
      * apply IH. rewrite loopBody_eq. simpl. lia.
    + right. left. rewrite streamLoop_full by exact Hge. exact Hge.
Qed.

End LoopFacts.

(** ** Page bound, admission and dedup *)

Section Admission.

Context `{JsonByteLength}.

(** C1. Every call of [streamNodes], whatever the document, the cursor
    and the state of the client, returns at most [pageSize] nodes; this
    covers every configuration with [pageSize >= 1]. *)
Theorem streamNodes_page_bound (c : ChunkedFigmaClient)
        (document : DocumentNode) (cursor : option string) :
  length (nodes (fst (streamNodes c document cursor)))
  <= pageSize (clientConfig c).
Proof.
  unfold streamNodes. simpl.
  apply (streamLoop_invariant (pageSize (clientConfig c))
           (fun s => length (loopResult s) <= pageSize (clientConfig c))).
  - intros p node depth queue result _ Hlt.
    rewrite loopBody_eq. simpl.
    destruct (fst (processNode p node depth)); [|lia].
    rewrite length_app. simpl. lia.
  - simpl. lia.
Qed.

(** The result list, the dedup set and the accumulator only grow while
    the loop runs. *)
Lemma streamLoop_monotone (pageSz fuel : nat) (s : LoopState) :
  loopResult s `prefix_of` loopResult (streamLoop fuel pageSz s)
  /\ processedNodes (loopProcessor s)
       ⊆ processedNodes (loopProcessor (streamLoop fuel pageSz s))
  /\ (currentSize (loopProcessor s)
      <= currentSize (loopProcessor (streamLoop fuel pageSz s)))%Q
  /\ config (loopProcessor (streamLoop fuel pageSz s))
     = config (loopProcessor s).
Proof.
  apply (streamLoop_invariant pageSz
           (fun s' =>
              loopResult s `prefix_of` loopResult s'
              /\ processedNodes (loopProcessor s)
                   ⊆ processedNodes (loopProcessor s')
              /\ (currentSize (loopProcessor s)
                  <= currentSize (loopProcessor s'))%Q
              /\ config (loopProcessor s') = config (loopProcessor s))).
  - intros p node depth queue result (Hpre & Hsub & Hsz & Hcfg) _.
    rewrite loopBody_eq. simpl in *.
    pose proof (processNode_processed_mono p node depth) as Hm.
    pose proof (processNode_size_mono p node depth) as Hq.
    pose proof (processNode_config p node depth) as Hc.
    repeat split.
    + destruct (fst (processNode p node depth)); [|exact Hpre].
      now apply prefix_app_r.
    + set_solver.
    + lra.
    + congruence.
  - repeat split; try reflexivity. lra.
Qed.

(** Without property filter and without summaries the accumulator stays
    within the limit along the loop, once it is within it. *)
Lemma streamLoop_plain_within_limit (pageSz fuel : nat) (s : LoopState) :
  excludeProps (config (loopProcessor s)) = None ->
  truthyBool (summarizeNodes (config (loopProcessor s))) = false ->
  (currentSize (loopProcessor s) <= sizeLimit (config (loopProcessor s)))%Q ->
  (currentSize (loopProcessor (streamLoop fuel pageSz s))
   <= sizeLimit (config (loopProcessor s)))%Q.
Proof.
  intros Hex Hsum Hle.
  cut (config (loopProcessor (streamLoop fuel pageSz s))
       = config (loopProcessor s)
       /\ (currentSize (loopProcessor (streamLoop fuel pageSz s))
           <= sizeLimit (config (loopProcessor s)))%Q).
  { intros [_ Hgoal]. exact Hgoal. }
  apply (streamLoop_invariant pageSz
           (fun s' =>
              config (loopProcessor s') = config (loopProcessor s)
              /\ (currentSize (loopProcessor s')
                  <= sizeLimit (config (loopProcessor s)))%Q)).
  - intros p node depth queue result [Hcfg Hcur] _.
    cbn [loopProcessor] in Hcfg, Hcur. rewrite loopBody_eq.
    destruct (shouldProcessNode p node depth) eqn:E.
    + rewrite (processNode_admit _ _ _ E).
      cbn [fst snd loopProcessor config currentSize].
      split; [exact Hcfg|].
      apply shouldProcessNode_true in E as (_ & _ & _ & Hcheck).
      rewrite transformNode_plain by (rewrite Hcfg; assumption).
      rewrite Hcfg in Hcheck. exact Hcheck.
    + rewrite (processNode_reject _ _ _ E).
      cbn [fst snd loopProcessor]. split; assumption.
  - split; [reflexivity | exact Hle].
Qed.

(** C2, as the code has it.  The size check comes before acceptance
    and reads the node as fetched: a node is accepted only when the
    accumulator plus the estimated size of the node as fetched is within
    the limit; the accepted node is the transform of that node, it is
    appended to the result, and the accumulator takes the estimated size
    of the node as returned.  So the accumulator is within the limit
    after an acceptance whenever the transform does not raise the
    estimate, and, with no property filter and no summaries, it stays
    within the limit along a whole traversal.  A rejected node leaves the
    result and the accumulator as they were, and nothing accepted is
    taken back: along the loop the result only grows at its end, and the
    dedup set and the accumulator only grow. *)
Theorem size_check_precedes_acceptance (p : StreamingNodeProcessor)
        (node : SceneNode) (depth : nat) (queue : list QueueEntry)
        (result : list SceneNode) :
  match fst (processNode p node depth) with
  | Some accepted =>
      accepted = transformNode (config p) node
      /\ (currentSize p + estimateNodeSize node <= sizeLimit (config p))%Q
      /\ loopResult (fst (loopBody p node depth queue result))
         = result ++ [accepted]
      /\ currentSize (loopProcessor (fst (loopBody p node depth queue result)))
         = (currentSize p + estimateNodeSize accepted)%Q
      /\ ((estimateNodeSize accepted <= estimateNodeSize node)%Q ->
          (currentSize (loopProcessor (fst (loopBody p node depth queue result)))
           <= sizeLimit (config p))%Q)
  | None =>
      loopResult (fst (loopBody p node depth queue result)) = result
      /\ loopProcessor (fst (loopBody p node depth queue result)) = p
  end
  /\ (forall pageSz fuel s,
        loopResult s `prefix_of` loopResult (streamLoop fuel pageSz s)
        /\ processedNodes (loopProcessor s)
             ⊆ processedNodes (loopProcessor (streamLoop fuel pageSz s))
        /\ (currentSize (loopProcessor s)
            <= currentSize (loopProcessor (streamLoop fuel pageSz s)))%Q)
  /\ forall pageSz fuel s,
      excludeProps (config (loopProcessor s)) = None ->
      truthyBool (summarizeNodes (config (loopProcessor s))) = false ->
      (currentSize (loopProcessor s)
       <= sizeLimit (config (loopProcessor s)))%Q ->
      (currentSize (loopProcessor (streamLoop fuel pageSz s))
       <= sizeLimit (config (loopProcessor s)))%Q.
Proof.
  split; [|split].
  - rewrite loopBody_eq. simpl.
    destruct (shouldProcessNode p node depth) eqn:E.
    + rewrite (processNode_admit _ _ _ E). simpl.
      apply shouldProcessNode_true in E as (_ & _ & _ & Hle).
      repeat split; auto. intros Hshrink. lra.
    + rewrite (processNode_reject _ _ _ E). simpl. auto.
  - intros pageSz fuel s.
    destruct (streamLoop_monotone pageSz fuel s) as (H1 & H2 & H3 & _).
    auto.
  - intros pageSz fuel s. apply streamLoop_plain_within_limit.
Qed.

(** Nodes returned by the loop carry ids that were not in the dedup set
    when the loop started, are in it when the loop ends, and are
    pairwise distinct. *)
Lemma streamLoop_dedup (pageSz fuel : nat) (p : StreamingNodeProcessor)
      (queue : list QueueEntry) :
  let s' := streamLoop fuel pageSz (mkLoop p queue []) in
  NoDup (map id (loopResult s'))
  /\ forall n, n ∈ loopResult s' ->
       (id n ∉ processedNodes p)
       /\ (id n ∈ processedNodes (loopProcessor s')).
Proof.
  cut (let s' := streamLoop fuel pageSz (mkLoop p queue []) in
       processedNodes p ⊆ processedNodes (loopProcessor s')
       /\ NoDup (map id (loopResult s'))
       /\ forall n, n ∈ loopResult s' ->
            (id n ∉ processedNodes p)
            /\ (id n ∈ processedNodes (loopProcessor s'))).
  { intros (_ & Hnd & Hres). split; assumption. }
  apply (streamLoop_invariant pageSz
           (fun s' =>
              processedNodes p ⊆ processedNodes (loopProcessor s')
              /\ NoDup (map id (loopResult s'))
              /\ forall n, n ∈ loopResult s' ->
                   (id n ∉ processedNodes p)
                   /\ (id n ∈ processedNodes (loopProcessor s')))).
  - intros p1 node depth q result (Hsub & Hnd & Hres) _.
    rewrite loopBody_eq. simpl in *.
    destruct (shouldProcessNode p1 node depth) eqn:E.
    + rewrite (processNode_admit _ _ _ E). simpl.
      apply shouldProcessNode_true in E as (Hfresh & _).
      split; [now apply union_subseteq_r'|]. split.
      * rewrite map_app. simpl. apply NoDup_app. split; [exact Hnd|].
        split; [|apply NoDup_singleton].
        intros i Hi Hi'. apply list_elem_of_singleton in Hi'. subst i.
        rewrite transformNode_id in Hi.
        apply list_elem_of_fmap in Hi as (n & Hn & Hnin).
        destruct (Hres n Hnin) as [_ Hp]. rewrite <- Hn in Hp. contradiction.
      * intros n Hn. apply elem_of_app in Hn as [Hn|Hn].
        -- destruct (Hres n Hn). split; [assumption|].
           apply elem_of_union. now right.
        -- apply list_elem_of_singleton in Hn. subst n.
           rewrite transformNode_id. split.
           ++ intros Hold. apply Hfresh. now apply Hsub.
           ++ apply elem_of_union. left. now apply elem_of_singleton.
    + rewrite (processNode_reject _ _ _ E). simpl. auto.
  - simpl. split; [reflexivity|]. split; [constructor|].
    intros n Hn. inversion Hn.
Qed.

End Admission.

(** ** Traversal order *)

Lemma preorderAll_app (l1 l2 : list SceneNode) :
  preorderAll (l1 ++ l2) = preorderAll l1 ++ preorderAll l2.
Proof. unfold preorderAll. apply flat_map_app. Qed.

Lemma map_fst_entriesAt (depth : nat) (ns : list SceneNode) :
  map fst (entriesAt depth ns) = ns.
Proof.
  unfold entriesAt. rewrite map_map. simpl. apply map_id.
Qed.

Lemma preorderQueue_cons (node : SceneNode) (depth : nat)
      (queue : list QueueEntry) :
  preorderQueue ((node, depth) :: queue) =
  node :: preorderQueue (pushChildren node depth queue).
Proof.
  unfold preorderQueue, pushChildren.
  rewrite map_app, map_fst_entriesAt, preorderAll_app.
  simpl. rewrite preorder_unfold. reflexivity.
Qed.

Lemma skipToCursor_zero (queue : list QueueEntry) :
  skipToCursor (Some 0%Z) queue = queue.
Proof. destruct queue; reflexivity. Qed.

Section Order.

Context `{JsonByteLength}.

Lemma admissionCost_bounds (cfg : ChunkConfig) (node : SceneNode) :
  (estimateNodeSize node <= admissionCost cfg node)%Q
  /\ (estimateNodeSize (transformNode cfg node) <= admissionCost cfg node)%Q.
Proof.
  unfold admissionCost. split; [apply Q.le_max_l | apply Q.le_max_r].
Qed.

Lemma totalCost_nonneg (cfg : ChunkConfig) (ns : list SceneNode) :
  (0 <= totalCost cfg ns)%Q.
Proof.
  induction ns as [|n ns IH]; simpl; [lra|].
  destruct (admissionCost_bounds cfg n) as [Hn _].
  pose proof (estimateNodeSize_nonneg n). lra.
Qed.

(** With no type filter and no depth limit, fresh distinct ids, room in
    the page and in the budget, the loop drains its queue and appends
    the nodes the queue stands for, in pre-order. *)
Lemma streamLoop_admits_all (cfg : ChunkConfig) (pageSz : nat) :
  nodeTypes cfg = None -> maxDepth cfg = None ->
  forall fuel s,
    config (loopProcessor s) = cfg ->
    queueWeight (loopQueue s) <= fuel ->
    NoDup (map id (preorderQueue (loopQueue s))) ->
    (forall n, n ∈ preorderQueue (loopQueue s) ->
               id n ∉ processedNodes (loopProcessor s)) ->
    length (loopResult s) + length (preorderQueue (loopQueue s)) <= pageSz ->
    (currentSize (loopProcessor s)
     + totalCost cfg (preorderQueue (loopQueue s)) < sizeLimit cfg)%Q ->
    loopQueue (streamLoop fuel pageSz s) = []
    /\ loopResult (streamLoop fuel pageSz s)
       = loopResult s ++ map (transformNode cfg) (preorderQueue (loopQueue s)).
Proof.
  intros Hty Hdep.
  induction fuel as [|fuel IH]; intros s Hcfg Hfuel Hnd Hfresh Hpage Hsize.
  - assert (loopQueue s = []) as Hq by (apply queueWeight_zero; lia).
    simpl. rewrite Hq. simpl. now rewrite app_nil_r.
  - destruct s as [p [|[node depth] queue] result]; simpl in *.
    { now rewrite app_nil_r. }
    rewrite preorderQueue_cons in *. simpl in Hpage, Hsize, Hnd.
    set (rest := preorderQueue (pushChildren node depth queue)) in *.
    destruct (Nat.ltb_spec (length result) pageSz) as [Hlt|Hge]; [|lia].
    rewrite loopBody_eq.
    destruct (admissionCost_bounds cfg node) as [Hc1 Hc2].
    pose proof (totalCost_nonneg cfg rest) as Hrest.
    assert (shouldProcessNode p node depth = true) as Hadmit.
    { apply shouldProcessNode_true. rewrite Hcfg, Hty, Hdep.
      repeat split; try discriminate.
      - apply Hfresh. left.
      - lra. }
    rewrite (processNode_admit _ _ _ Hadmit). simpl. rewrite Hcfg.
    unfold hasReachedLimit. simpl.
    assert (Qle_bool (sizeLimit cfg)
              (currentSize p + estimateNodeSize (transformNode cfg node))
            = false) as ->.
    { apply Qle_bool_false. lra. }
    apply NoDup_cons in Hnd as [Hnotin Hnd'].
    destruct (IH (mkLoop
                    (mkProcessor ({[id node]} ∪ processedNodes p) cfg
                       (currentSize p
                        + estimateNodeSize (transformNode cfg node))%Q)
                    (pushChildren node depth queue)
                    (result ++ [transformNode cfg node])))
      as [Hq Hr]; simpl.
    + reflexivity.
    + rewrite <- queueWeight_pushChildren in Hfuel. lia.
    + exact Hnd'.
    + intros n Hn. fold rest in Hn.
      assert (id n ≠ id node) as Hne.
      { intros Heq. apply Hnotin. rewrite <- Heq.
        apply list_elem_of_fmap. now exists n. }
      assert (id n ∉ processedNodes p) as Hold by (apply Hfresh; now right).
      intros Hin. apply elem_of_union in Hin as [Hin|Hin]; [|auto].
      apply elem_of_singleton in Hin. auto.
    + rewrite length_app. simpl. fold rest. lia.
    + fold rest. lra.
    + split; [exact Hq|]. rewrite Hr. simpl. fold rest.
      now rewrite <- app_assoc.
Qed.

(** C3. From a client with no type filter and no depth limit, on a
    document whose node ids are distinct and new to the client, with a
    page and a budget that admit every node, a cursor-less call returns
    every node, transformed as configured, in pre-order depth-first
    order with siblings in document order; nothing is left over.  When
    no property is excluded and no summary is asked for, the nodes are
    returned as they are. *)
Theorem streamNodes_preorder (c : ChunkedFigmaClient) (document : DocumentNode) :
  let cfg := clientConfig c in
  let all := preorderAll (documentChildren document) in
  config (nodeProcessor c) = cfg ->
  nodeTypes cfg = None -> maxDepth cfg = None ->
  NoDup (map id all) ->
  (forall n, n ∈ all -> id n ∉ processedNodes (nodeProcessor c)) ->
  length all <= pageSize cfg ->
  (currentSize (nodeProcessor c) + totalCost cfg all < sizeLimit cfg)%Q ->
  nodes (fst (streamNodes c document None)) = map (transformNode cfg) all
  /\ map id (nodes (fst (streamNodes c document None))) = map id all
  /\ hasMore (fst (streamNodes c document None)) = false
  /\ nextCursor (fst (streamNodes c document None)) = None
  /\ (excludeProps cfg = None -> truthyBool (summarizeNodes cfg) = false ->
      nodes (fst (streamNodes c document None)) = all).
Proof.
  intros cfg all Hcfg Hty Hdep Hnd Hfresh Hpage Hsize.
  unfold streamNodes. simpl. rewrite skipToCursor_zero.
  assert (preorderQueue (entriesAt 0 (documentChildren document)) = all)
    as Hall by (unfold preorderQueue; now rewrite map_fst_entriesAt).
  destruct (streamLoop_admits_all cfg (pageSize cfg) Hty Hdep
              (queueWeight (entriesAt 0 (documentChildren document)))
              (mkLoop (nodeProcessor c)
                      (entriesAt 0 (documentChildren document)) []))
    as [Hq Hr]; simpl; rewrite ?Hall; auto.
  fold cfg. rewrite Hq, Hr. simpl. rewrite Hall.
  repeat split.
  - rewrite map_map. apply map_ext. intros n. apply transformNode_id.
  - intros He Hs. rewrite <- (map_id all) at 2. apply map_ext.
    intros n. now apply transformNode_plain.
Qed.

End Order.

(** ** Cursors *)

Lemma skipToCursor_NaN (queue : list QueueEntry) :
  skipToCursor None queue = queue.
Proof. destruct queue; reflexivity. Qed.

(** The skip loop drops a prefix of the queue it is given and nothing else. *)
Lemma skipToCursor_drop (queue : list QueueEntry) :
  forall k : Z, skipToCursor (Some k) queue = drop (Z.to_nat k) queue.
Proof.
  induction queue as [|e queue IH]; intros k; simpl.
  - now rewrite drop_nil.
  - destruct (Z.ltb_spec 0 k) as [Hpos|Hneg].
    + rewrite IH. replace (Z.to_nat k) with (S (Z.to_nat (k - 1))) by lia.
      reflexivity.
    + replace (Z.to_nat k) with 0 by lia. reflexivity.
Qed.

Lemma entriesAt_drop (depth n : nat) (ns : list SceneNode) :
  drop n (entriesAt depth ns) = entriesAt depth (drop n ns).
Proof. unfold entriesAt. symmetry. apply fmap_drop. Qed.

Lemma cursorIndex_parse (cursor : string) (k : Z) :
  parseInt cursor = Some k -> cursorIndex (Some cursor) = Some k.
Proof.
  intros Hk. destruct cursor; [discriminate Hk | exact Hk].
Qed.

(** White space of more than one byte is stripped too: a no-break space
    (U+00A0) or a byte order mark (U+FEFF) before the digits leaves a
    number; a zero width space (U+200B), which is not white space, does
    not. *)
Example parseInt_no_break_space :
  parseInt (String (ascii_of_nat 194) (String (ascii_of_nat 160) "2"))
  = Some 2%Z.
Proof. reflexivity. Qed.

Example parseInt_byte_order_mark :
  parseInt (String (ascii_of_nat 239)
              (String (ascii_of_nat 187) (String (ascii_of_nat 191) "12")))
  = Some 12%Z.
Proof. reflexivity. Qed.

Example parseInt_zero_width_space :
  parseInt (String (ascii_of_nat 226)
              (String (ascii_of_nat 128) (String (ascii_of_nat 139) "2")))
  = None.
Proof. reflexivity. Qed.

Section Cursor.

Context `{JsonByteLength}.

(** C9. The skip phase drops entries of the queue seeded with the
    top-level children and finds no children: for every cursor, present
    or not, numeric or not, what is left is the top-level children from
    some position on, at depth 0; for a numeric cursor [k] that position
    is [k] (the start when [k] is negative).  So with a numeric cursor
    that is at least the number of top-level children the call returns
    no node, [hasMore = false] and no next cursor, leaves the client
    as it was and raises nothing, whatever descendants the skipped
    nodes have. *)
Theorem cursor_skips_top_level_only (c : ChunkedFigmaClient)
        (document : DocumentNode) :
  (forall cursor : option string,
      skipToCursor (cursorIndex cursor)
                   (entriesAt 0 (documentChildren document))
      = entriesAt 0 (drop (match cursorIndex cursor with
                           | Some k => Z.to_nat k
                           | None => 0
                           end)
                          (documentChildren document)))
  /\ (forall (cursor : string) (k : Z),
        parseInt cursor = Some k ->
        skipToCursor (cursorIndex (Some cursor))
                     (entriesAt 0 (documentChildren document))
        = entriesAt 0 (drop (Z.to_nat k) (documentChildren document)))
  /\ (forall (cursor : string) (k : Z),
        parseInt cursor = Some k ->
        (Z.of_nat (length (documentChildren document)) <= k)%Z ->
        streamNodes c document (Some cursor)
        = ({| nodes := [];
              memoryUsage := currentSize (nodeProcessor c);
              nextCursor := None;
              hasMore := false |}, c)).
Proof.
  assert (forall (cursor : string) (k : Z),
             parseInt cursor = Some k ->
             skipToCursor (cursorIndex (Some cursor))
                          (entriesAt 0 (documentChildren document))
             = entriesAt 0 (drop (Z.to_nat k) (documentChildren document)))
    as Hskip.
  { intros cursor k Hk.
    rewrite (cursorIndex_parse _ _ Hk), skipToCursor_drop.
    apply entriesAt_drop. }
  split; [|split].
  - intros cursor. destruct (cursorIndex cursor) as [k|].
    + rewrite skipToCursor_drop. apply entriesAt_drop.
    + rewrite skipToCursor_NaN. reflexivity.
  - exact Hskip.
  - intros cursor k Hk Hlen.
    unfold streamNodes. rewrite (Hskip cursor k Hk).
    rewrite drop_ge by lia. simpl. destruct c; reflexivity.
Qed.

(** C6, as the code has it.  A cursor that [parseInt] cannot read is
    not an error: the comparison of NaN with zero is false, nothing is
    skipped, and the call behaves as a call without cursor. *)
Theorem malformed_cursor_skips_nothing (c : ChunkedFigmaClient)
        (document : DocumentNode) (cursor : string)
        (cfg : option PartialChunkConfig) :
  parseInt cursor = None ->
  streamNodes c document (Some cursor) = streamNodes c document None
  /\ getFileInfoChunked c (FetchData (Some document)) (Some cursor) cfg
     = getFileInfoChunked c (FetchData (Some document)) None cfg
  /\ exists r, fst (getFileInfoChunked c (FetchData (Some document))
                      (Some cursor) cfg) = Returned r.
Proof.
  intros Hnan.
  assert (forall c', streamNodes c' document (Some cursor)
                     = streamNodes c' document None) as Heq.
  { intros c'. unfold streamNodes.
    replace (skipToCursor (cursorIndex (Some cursor))
               (entriesAt 0 (documentChildren document)))
      with (skipToCursor (cursorIndex None)
              (entriesAt 0 (documentChildren document))); [reflexivity|].
    simpl cursorIndex at 1. rewrite skipToCursor_zero.
    destruct cursor as [|a cursor]; simpl cursorIndex.
    - now rewrite skipToCursor_zero.
    - rewrite Hnan. now rewrite skipToCursor_NaN. }
  split; [apply Heq|]. unfold getFileInfoChunked.
  split.
  - now rewrite Heq.
  - destruct (streamNodes _ document (Some cursor)) as [r c2].
    now exists r.
Qed.

(** C7, as the code has it.  The limit read by the admission check and
    by the stop condition is [maxResponseSize] whenever it is present
    and not zero, whatever [maxMemoryMB] is; [maxMemoryMB] is the limit
    only when [maxResponseSize] is missing or zero. *)
Theorem response_size_limit_takes_precedence (p : StreamingNodeProcessor) :
  let limit :=
    match maxResponseSize (config p) with
    | Some r => if Qeq_bool r 0 then maxMemoryMB (config p) else r
    | None => maxMemoryMB (config p)
    end in
  (hasReachedLimit p = true <-> (limit <= currentSize p)%Q)
  /\ forall node depth,
      shouldProcessNode p node depth = true <->
      (id node ∉ processedNodes p)
      /\ (forall ts, nodeTypes (config p) = Some ts -> type node ∈ ts)
      /\ (forall d, maxDepth (config p) = Some d -> depth <= d)
      /\ (currentSize p + estimateNodeSize node <= limit)%Q.
Proof.
  intros limit.
  assert (sizeLimit (config p) = limit) as Hlim.
  { unfold sizeLimit, orElseQ, truthyQ, limit.
    destruct (maxResponseSize (config p)) as [r|]; [|reflexivity].
    now destruct (Qeq_bool r 0). }
  split.
  - unfold hasReachedLimit. rewrite Hlim. apply Qle_bool_iff.
  - intros node depth. rewrite <- Hlim. apply shouldProcessNode_true.
Qed.

End Cursor.

(** ** Scenarios *)

Lemma size_pair (x y : string) :
  x ≠ y -> size ({[ y ]} ∪ ({[ x ]} ∪ ∅) : gset string) = 2.
Proof.
  intros Hne. rewrite union_empty_r_L.
  rewrite size_union by (apply disjoint_singleton_l; intros Hy;
                         apply elem_of_singleton in Hy; congruence).
  now rewrite !size_singleton.
Qed.

#[local] Arguments streamLoop : simpl never.

Section Scenarios.

Context `{JsonByteLength}.

Lemma streamLoop_admit (fuel pageSz : nat) (p : StreamingNodeProcessor)
      (node : SceneNode) (depth : nat) (queue : list QueueEntry)
      (result : list SceneNode) :
  length result < pageSz ->
  shouldProcessNode p node depth = true ->
  let p' := mkProcessor ({[ id node ]} ∪ processedNodes p) (config p)
              (currentSize p
               + estimateNodeSize (transformNode (config p) node))%Q in
  let s' := mkLoop p' (pushChildren node depth queue)
                   (result ++ [transformNode (config p) node]) in
  streamLoop (S fuel) pageSz (mkLoop p ((node, depth) :: queue) result)
  = if hasReachedLimit p' then s' else streamLoop fuel pageSz s'.
Proof.
  intros Hlt Hadmit p' s'. rewrite streamLoop_step by exact Hlt.
  rewrite loopBody_eq, (processNode_admit _ _ _ Hadmit). reflexivity.
Qed.

Lemma streamLoop_reject (fuel pageSz : nat) (p : StreamingNodeProcessor)
      (node : SceneNode) (depth : nat) (queue : list QueueEntry)
      (result : list SceneNode) :
  length result < pageSz ->
  shouldProcessNode p node depth = false ->
  let s' := mkLoop p (pushChildren node depth queue) result in
  streamLoop (S fuel) pageSz (mkLoop p ((node, depth) :: queue) result)
  = if hasReachedLimit p then s' else streamLoop fuel pageSz s'.
Proof.
  intros Hlt Hrej s'. rewrite streamLoop_step by exact Hlt.
  rewrite loopBody_eq, (processNode_reject _ _ _ Hrej). reflexivity.
Qed.

Lemma pushChildren_leaf (node : SceneNode) (depth : nat)
      (queue : list QueueEntry) :
  childrenOrEmpty node = [] -> pushChildren node depth queue = queue.
Proof. intros Hc. unfold pushChildren. now rewrite Hc. Qed.

Lemma nodeWeight_leaf (node : SceneNode) :
  childrenOrEmpty node = [] -> nodeWeight node = 1.
Proof. intros Hc. rewrite nodeWeight_unfold. now rewrite Hc. Qed.

(** C5, as the code has it.  On a fresh client with a page of at least
    one node, a document whose only node has no children and an
    estimated size above the limit yields, without error, no node,
    [memoryUsage = 0], [hasMore = false] and no next cursor: the node
    was taken off the queue before the size check turned it down. *)
Theorem oversized_node_is_dropped (c : ChunkedFigmaClient)
        (document : DocumentNode) (node : SceneNode) :
  nodeProcessor c = newProcessor (clientConfig c) ->
  1 <= pageSize (clientConfig c) ->
  documentChildren document = [node] ->
  childrenOrEmpty node = [] ->
  (sizeLimit (clientConfig c) < estimateNodeSize node)%Q ->
  streamNodes c document None
  = ({| nodes := []; memoryUsage := 0%Q; nextCursor := None;
        hasMore := false |}, c).
Proof.
  intros Hfresh Hpage Hdoc Hleaf Hbig.
  destruct c as [cfg p]. simpl in *. subst p.
  unfold streamNodes. simpl. rewrite Hdoc. simpl.
  unfold queueWeight. simpl. rewrite (nodeWeight_leaf _ Hleaf). simpl.
  assert (shouldProcessNode (newProcessor cfg) node 0 = false) as Hrej.
  { destruct (shouldProcessNode (newProcessor cfg) node 0) eqn:E;
      [|reflexivity].
    apply shouldProcessNode_true in E as (_ & _ & _ & Hle).
    simpl in Hle. lra. }
  rewrite streamLoop_reject; [|simpl; lia|exact Hrej].
  rewrite (pushChildren_leaf _ _ _ Hleaf).
  destruct (hasReachedLimit (newProcessor cfg)); reflexivity.
Qed.

(** The four checks of [shouldProcessNode] for a top-level FRAME. *)
Lemma shouldProcessNode_frame (p : StreamingNodeProcessor) (node : SceneNode) :
  id node ∉ processedNodes p ->
  type node = "FRAME" ->
  (forall ts, nodeTypes (config p) = Some ts -> "FRAME" ∈ ts) ->
  (currentSize p + estimateNodeSize node <= sizeLimit (config p))%Q ->
  shouldProcessNode p node 0 = true.
Proof.
  intros Hid Hty Hts Hsz. apply shouldProcessNode_true.
  repeat split; auto.
  - intros ts Ets. rewrite Hty. eauto.
  - intros d _. lia.
Qed.

(** C4. A fresh client with pages of two nodes, three top-level FRAME
    nodes without children and with distinct ids, a type filter (if
    any) that lets FRAME through, and a limit above the cost of the
    three nodes: the first call, without cursor, returns the first two
    nodes with [hasMore = true] and the cursor "2", the number of nodes
    admitted so far; the second call on the same client, with cursor
    "2", returns the third node with [hasMore = false] and no cursor. *)
Theorem three_frames_in_two_pages (c : ChunkedFigmaClient) (a b d : SceneNode) :
  nodeProcessor c = newProcessor (clientConfig c) ->
  pageSize (clientConfig c) = 2 ->
  (forall ts, nodeTypes (clientConfig c) = Some ts -> "FRAME" ∈ ts) ->
  type a = "FRAME" -> type b = "FRAME" -> type d = "FRAME" ->
  childrenOrEmpty a = [] -> childrenOrEmpty b = [] ->
  childrenOrEmpty d = [] ->
  NoDup [id a; id b; id d] ->
  (totalCost (clientConfig c) [a; b; d] < sizeLimit (clientConfig c))%Q ->
  nodes (fst (streamNodes c (mkDocument [a; b; d]) None))
  = [transformNode (clientConfig c) a; transformNode (clientConfig c) b]
  /\ hasMore (fst (streamNodes c (mkDocument [a; b; d]) None)) = true
  /\ nextCursor (fst (streamNodes c (mkDocument [a; b; d]) None)) = Some "2"
  /\ nodes (fst (streamNodes
                   (snd (streamNodes c (mkDocument [a; b; d]) None))
                   (mkDocument [a; b; d]) (Some "2")))
     = [transformNode (clientConfig c) d]
  /\ hasMore (fst (streamNodes
                     (snd (streamNodes c (mkDocument [a; b; d]) None))
                     (mkDocument [a; b; d]) (Some "2"))) = false
  /\ nextCursor (fst (streamNodes
                        (snd (streamNodes c (mkDocument [a; b; d]) None))
                        (mkDocument [a; b; d]) (Some "2"))) = None.
Proof.
  intros Hfresh Hpage Hts Hta Htb Htd Hla Hlb Hld Hnd Hcost.
  destruct c as [cfg p]. cbn [clientConfig nodeProcessor] in *. subst p.
  simpl in Hcost.
  apply NoDup_cons in Hnd as [Hab Hnd]. apply NoDup_cons in Hnd as [Hbd _].
  assert (id a ≠ id b) as Nab by (intros E; apply Hab; rewrite E; left).
  assert (id a ≠ id d) as Nad
      by (intros E; apply Hab; rewrite E; right; left).
  assert (id b ≠ id d) as Nbd by (intros E; apply Hbd; rewrite E; left).
  destruct (admissionCost_bounds cfg a) as [Ca1 Ca2].
  destruct (admissionCost_bounds cfg b) as [Cb1 Cb2].
  destruct (admissionCost_bounds cfg d) as [Cd1 Cd2].
  pose proof (estimateNodeSize_nonneg a) as Pa.
  pose proof (estimateNodeSize_nonneg b) as Pb.
  pose proof (estimateNodeSize_nonneg d) as Pd.
  pose proof (estimateNodeSize_nonneg (transformNode cfg a)) as Pta.
  pose proof (estimateNodeSize_nonneg (transformNode cfg b)) as Ptb.
  set (p1 := mkProcessor ({[ id a ]} ∪ ∅) cfg
               (0 + estimateNodeSize (transformNode cfg a))%Q).
  set (p2 := mkProcessor ({[ id b ]} ∪ ({[ id a ]} ∪ ∅)) cfg
               (0 + estimateNodeSize (transformNode cfg a)
                + estimateNodeSize (transformNode cfg b))%Q).
  (* first call *)
  assert (streamNodes (mkClient cfg (newProcessor cfg))
            (mkDocument [a; b; d]) None
          = (mkResult [transformNode cfg a; transformNode cfg b]
               (currentSize p2) (Some "2") true,
             mkClient cfg p2)) as Hcall.
  { unfold streamNodes. simpl. rewrite Hpage.
    unfold queueWeight. simpl.
    rewrite (nodeWeight_leaf _ Hla), (nodeWeight_leaf _ Hlb),
      (nodeWeight_leaf _ Hld). simpl.
    rewrite streamLoop_admit; [|simpl; lia|].
    2:{ apply shouldProcessNode_frame; simpl; auto.
        - apply not_elem_of_empty.
        - lra. }
    simpl. fold p1. rewrite (pushChildren_leaf _ _ _ Hla).
    assert (hasReachedLimit p1 = false) as ->.
    { unfold hasReachedLimit. simpl. apply Qle_bool_false. lra. }
    rewrite streamLoop_admit; [|simpl; lia|].
    2:{ apply shouldProcessNode_frame; simpl; auto.
        - intros Hin. apply elem_of_union in Hin as [Hin|Hin].
          + apply elem_of_singleton in Hin. congruence.
          + revert Hin. apply not_elem_of_empty.
        - lra. }
    simpl. fold p2. rewrite (pushChildren_leaf _ _ _ Hlb).
    rewrite streamLoop_full by (simpl; lia).
    assert ((if hasReachedLimit p2
             then mkLoop p2 [(d, 0)]
                    [transformNode cfg a; transformNode cfg b]
             else mkLoop p2 [(d, 0)]
                    [transformNode cfg a; transformNode cfg b])
            = mkLoop p2 [(d, 0)] [transformNode cfg a; transformNode cfg b])
      as -> by now destruct (hasReachedLimit p2).
    cbn [loopProcessor loopQueue loopResult length Nat.ltb Nat.leb
         getProcessedCount getCurrentSize].
    assert (getProcessedCount p2 = 2) as ->
        by (unfold getProcessedCount, p2; cbn [processedNodes];
            apply size_pair, Nab).
    reflexivity. }
  rewrite Hcall. simpl.
  split; [reflexivity|]. split; [reflexivity|]. split; [reflexivity|].
  (* second call *)
  unfold streamNodes. simpl. rewrite Hpage.
  unfold queueWeight. simpl. rewrite (nodeWeight_leaf _ Hld). simpl.
  rewrite streamLoop_admit; [|simpl; lia|].
  2:{ apply shouldProcessNode_frame; simpl; auto.
      - intros Hin. apply elem_of_union in Hin as [Hin|Hin].
        + apply elem_of_singleton in Hin. congruence.
        + apply elem_of_union in Hin as [Hin|Hin].
          * apply elem_of_singleton in Hin. congruence.
          * revert Hin. apply not_elem_of_empty.
      - lra. }
  simpl. rewrite (pushChildren_leaf _ _ _ Hld).
  rewrite streamLoop_nil.
  destruct (hasReachedLimit _); simpl; repeat split; reflexivity.
Qed.

End Scenarios.

(** ** Skipped nodes and the dedup set across calls *)

Section Filters.

Context `{JsonByteLength}.

(** C10. The children of a node are put in front of the queue whether
    or not the node was admitted: when [processNode] turns the node
    down (dedup, type, depth or size), the body leaves the processor
    and the result as they were and the queue with the children, one
    level deeper, ahead of the rest.  So the type list does not prune
    subtrees: there are a client with a type list, a document, a
    top-level node whose type is not listed and a child of it that the
    call returns. *)
Theorem skipped_nodes_still_expand :
  (forall p node depth queue result,
      fst (processNode p node depth) = None ->
      loopBody p node depth queue result
      = (mkLoop p (entriesAt (S depth) (childrenOrEmpty node) ++ queue) result,
         hasReachedLimit p))
  /\ exists c document parent child ts,
      nodeTypes (clientConfig c) = Some ts
      /\ (parent ∈ documentChildren document)
      /\ (type parent ∉ ts)
      /\ (child ∈ childrenOrEmpty parent)
      /\ nodes (fst (streamNodes c document None)) = [child].
Proof.
  split.
  - intros p node depth queue result Hnone. rewrite loopBody_eq.
    unfold processNode in *.
    destruct (shouldProcessNode p node depth); [discriminate Hnone|].
    reflexivity.
  - set (child := leaf "1:2" "TEXT").
    set (parent := branch "1:1" "FRAME" [child]).
    set (cfg := mkConfig 100 (estimateNodeSize child + 1)%Q
                  (Some ["TEXT"]) None None None None).
    exists (mkClient cfg (newProcessor cfg)), (mkDocument [parent]),
      parent, child, ["TEXT"].
    pose proof (estimateNodeSize_nonneg child) as Hpos.
    split; [reflexivity|]. split; [left|].
    split; [intros Hin; apply list_elem_of_singleton in Hin;
            discriminate Hin|].
    split; [left|].
    unfold streamNodes.
    cbn [clientConfig nodeProcessor documentChildren cursorIndex entriesAt
         map pageSize].
    rewrite skipToCursor_zero.
    change (queueWeight [(parent, 0)]) with 2.
    rewrite streamLoop_reject; [|simpl; lia|].
    2:{ destruct (shouldProcessNode (newProcessor cfg) parent 0) eqn:E;
          [|reflexivity].
        apply shouldProcessNode_true in E as (_ & Hts & _).
        specialize (Hts ["TEXT"] eq_refl).
        apply list_elem_of_singleton in Hts. discriminate Hts. }
    assert (hasReachedLimit (newProcessor cfg) = false) as ->.
    { unfold hasReachedLimit. apply Qle_bool_false.
      cbn [newProcessor currentSize config]. unfold sizeLimit. simpl. lra. }
    change (pushChildren parent 0 []) with [(child, 1)].
    rewrite streamLoop_admit; [|simpl; lia|].
    2:{ apply shouldProcessNode_true. repeat split.
        - apply not_elem_of_empty.
        - intros ts [= <-]. left.
        - intros d Hd. discriminate Hd.
        - cbn [newProcessor currentSize config]. unfold sizeLimit. simpl.
          lra. }
    change (pushChildren child 1 []) with (@nil QueueEntry).
    rewrite streamLoop_nil.
    destruct (hasReachedLimit _); reflexivity.
Qed.

(** C8, as the code has it.  A processor turns down every node whose id
    is in its dedup set, whatever its configuration.  A call that
    passes no configuration keeps the processor: it returns no node
    whose id was in the dedup set, returns no id twice, and leaves
    every id it had or returned in the set.  A call that passes a
    configuration first replaces the processor by a new one with an
    empty dedup set. *)
Theorem dedup_lasts_as_long_as_the_processor (c : ChunkedFigmaClient)
        (response : FetchOutcome) (cursor : option string) :
  (forall p node depth,
      id node ∈ processedNodes p -> processNode p node depth = (None, p))
  /\ (processedNodes (nodeProcessor c)
        ⊆ processedNodes
            (nodeProcessor (snd (getFileInfoChunked c response cursor None)))
      /\ NoDup (map id (returnedNodes
                          (fst (getFileInfoChunked c response cursor None))))
      /\ forall n,
          n ∈ returnedNodes (fst (getFileInfoChunked c response cursor None)) ->
          (id n ∉ processedNodes (nodeProcessor c))
          /\ (id n ∈ processedNodes
                (nodeProcessor
                   (snd (getFileInfoChunked c response cursor None)))))
  /\ forall upd,
      getFileInfoChunked c response cursor (Some upd)
      = getFileInfoChunked
          (mkClient (mergeConfig (clientConfig c) upd)
                    (newProcessor (mergeConfig (clientConfig c) upd)))
          response cursor None.
Proof.
  split; [|split].
  - intros p node depth Hin. apply processNode_reject.
    destruct (shouldProcessNode p node depth) eqn:E; [|reflexivity].
    apply shouldProcessNode_true in E as (Hfresh & _). contradiction.
  - unfold getFileInfoChunked.
    destruct response as [[document|]|msg]; simpl;
      try (split; [reflexivity|]; split; [constructor|];
           intros n Hn; inversion Hn).
    unfold streamNodes. simpl.
    set (queue := skipToCursor (cursorIndex cursor)
                    (entriesAt 0 (documentChildren document))).
    destruct (streamLoop_monotone (pageSize (clientConfig c))
                (queueWeight queue) (mkLoop (nodeProcessor c) queue []))
      as (_ & Hsub & _).
    destruct (streamLoop_dedup (pageSize (clientConfig c))
                (queueWeight queue) (nodeProcessor c) queue)
      as (Hnd & Hres).
    split; [exact Hsub|]. split; [exact Hnd | exact Hres].
  - intros upd. reflexivity.
Qed.

End Filters.

(** ** The statements at work on the sample data *)

(** The default client reads the nested sample document in pre-order. *)
Lemma streamNodes_preorder_nested :
  map id (nodes (fst (streamNodes (H := oneMB) defaultClient nestedDocument None)))
  = ["0:1"; "1:1"; "1:2"; "1:3"; "1:4"; "0:2"; "2:1"]
  /\ hasMore (fst (streamNodes (H := oneMB) defaultClient nestedDocument None))
     = false.
Proof.
  destruct (@streamNodes_preorder oneMB defaultClient nestedDocument)
    as (_ & Hids & Hmore & _).
  - reflexivity.
  - reflexivity.
  - reflexivity.
  - apply (bool_decide_unpack _). vm_compute. exact I.
  - intros n _. apply not_elem_of_empty.
  - vm_compute. lia.
  - vm_compute. reflexivity.
  - split; [exact Hids | exact Hmore].
Defined.

(** The paged client reads the three sample frames in two calls. *)
Lemma three_frames_in_two_pages_sample :
  nextCursor (fst (streamNodes (H := oneMB) pagedClient threeFrames None))
  = Some "2"
  /\ length (nodes (fst (streamNodes (H := oneMB) pagedClient threeFrames None)))
     = 2
  /\ hasMore (fst (streamNodes (H := oneMB)
                     (snd (streamNodes (H := oneMB) pagedClient threeFrames None))
                     threeFrames (Some "2"))) = false.
Proof.
  destruct (@three_frames_in_two_pages oneMB pagedClient
              (leaf "1:1" "FRAME") (leaf "1:2" "FRAME") (leaf "1:3" "FRAME"))
    as (Hn & _ & Hc & _ & Hm & _);
    try reflexivity.
  - intros ts Hts. discriminate Hts.
  - apply (bool_decide_unpack _). vm_compute. exact I.
  - split; [exact Hc|]. split; [|exact Hm].
    change threeFrames
      with (mkDocument [leaf "1:1" "FRAME"; leaf "1:2" "FRAME";
                        leaf "1:3" "FRAME"]).
    now rewrite Hn.
Defined.

(** C2 as stated fails there: a text node of 26 bytes passes the check
    against a limit of 100 bytes and is accepted; the accumulator then
    holds the 202 bytes of its summary, above the limit, and the call
    reports that as its memory usage. *)
Lemma accepted_summary_exceeds_the_limit :
  (currentSize (nodeProcessor summaryClient)
   + estimateNodeSize (H := bareTextBytes) (leaf "1:1" "TEXT")
   <= sizeLimit (clientConfig summaryClient))%Q
  /\ fst (processNode (H := bareTextBytes) (nodeProcessor summaryClient)
                      (leaf "1:1" "TEXT") 0)
     = Some (summarizeNode (leaf "1:1" "TEXT"))
  /\ (sizeLimit (clientConfig summaryClient)
      < currentSize (snd (processNode (H := bareTextBytes)
                                      (nodeProcessor summaryClient)
                                      (leaf "1:1" "TEXT") 0)))%Q
  /\ nodes (fst (streamNodes (H := bareTextBytes) summaryClient bareText None))
     = [summarizeNode (leaf "1:1" "TEXT")]
  /\ (sizeLimit (clientConfig summaryClient)
      < memoryUsage (fst (streamNodes (H := bareTextBytes) summaryClient
                                      bareText None)))%Q.
Proof.
  split; [vm_compute; discriminate|].
  split; [reflexivity|].
  split; [vm_compute; reflexivity|].
  split; [reflexivity|].
  vm_compute; reflexivity.
Qed.

(** With half a megabyte of response, a text node of one megabyte. *)
Lemma oversized_node_is_dropped_sample :
  (sizeLimit (clientConfig tightClient)
   < estimateNodeSize (H := oneMB) (leaf "2:1" "TEXT"))%Q
  /\ streamNodes (H := oneMB) tightClient singleText None
     = (mkResult [] 0%Q None false, tightClient).
Proof.
  split; [reflexivity|].
  apply (@oversized_node_is_dropped oneMB tightClient singleText
           (leaf "2:1" "TEXT")); try reflexivity.
  simpl. lia.
Defined.

(** C5 as stated fails there: the call does not report more data. *)
Lemma oversized_node_hasMore_is_not_true :
  documentChildren singleText = [leaf "2:1" "TEXT"]
  /\ (sizeLimit (clientConfig tightClient)
      < estimateNodeSize (H := oneMB) (leaf "2:1" "TEXT"))%Q
  /\ hasMore (fst (streamNodes (H := oneMB) tightClient singleText None))
     <> true.
Proof.
  split; [reflexivity|]. split; [reflexivity|].
  vm_compute. discriminate.
Qed.

(** A cursor without digits. *)
Lemma malformed_cursor_skips_nothing_sample :
  parseInt "abc" = None
  /\ streamNodes (H := oneMB) defaultClient threeFrames (Some "abc")
     = streamNodes (H := oneMB) defaultClient threeFrames None.
Proof.
  split; [reflexivity|].
  apply (@malformed_cursor_skips_nothing oneMB defaultClient threeFrames
           "abc" None).
  reflexivity.
Defined.

(** C6 as stated fails there: the call returns the whole document and
    throws nothing. *)
Lemma malformed_cursor_is_not_an_error :
  parseInt "abc" = None
  /\ (forall message,
         fst (getFileInfoChunked (H := oneMB) defaultClient
                (FetchData (Some threeFrames)) (Some "abc") None)
         <> Thrown message)
  /\ returnedNodes
       (fst (getFileInfoChunked (H := oneMB) defaultClient
               (FetchData (Some threeFrames)) (Some "abc") None))
     = documentChildren threeFrames.
Proof.
  split; [reflexivity|]. split.
  - intros message. vm_compute. discriminate.
  - vm_compute. reflexivity.
Qed.

(** C7 as stated fails on the client whose memory limit is the smaller:
    a node of 200 MB passes the size check although it is above the 128 MB
    of [maxMemoryMB], and an accumulator at 200 MB has not reached the
    limit. *)
Lemma smaller_budget_does_not_govern :
  maxMemoryMB (clientConfig crossedClient) = 128%Q
  /\ maxResponseSize (clientConfig crossedClient) = Some 512%Q
  /\ (Qmin 128 512 < 0 + estimateNodeSize (H := twoHundredMB) (leaf "1:1" "FRAME"))%Q
  /\ shouldProcessNode (H := twoHundredMB) (nodeProcessor crossedClient)
       (leaf "1:1" "FRAME") 0 = true
  /\ hasReachedLimit
       (mkProcessor ∅ (clientConfig crossedClient) 200%Q) = false.
Proof.
  repeat split; vm_compute; reflexivity.
Qed.

(** C8 as stated fails across a change of configuration: the node the
    first call admitted is admitted again by a second call on the same
    client that passes a page size. *)
Lemma dedup_is_lost_on_config_change :
  let first :=
    getFileInfoChunked (H := oneMB) defaultClient
      (FetchData (Some singleText)) None None in
  let second :=
    getFileInfoChunked (H := oneMB) (snd first)
      (FetchData (Some singleText)) None (Some (pageSizeOnly 50)) in
  returnedNodes (fst first) = [leaf "2:1" "TEXT"]
  /\ "2:1" ∈ processedNodes (nodeProcessor (snd first))
  /\ returnedNodes (fst second) = [leaf "2:1" "TEXT"].
Proof.
  split; [vm_compute; reflexivity|]. split.
  - apply (bool_decide_unpack _). vm_compute. exact I.
  - vm_compute. reflexivity.
Qed.

(** A cursor of one leaves the second page of the nested document, its
    child still unseen; a cursor past both pages leaves nothing. *)
Lemma cursor_skips_top_level_only_sample :
  skipToCursor (cursorIndex (Some "1"))
               (entriesAt 0 (documentChildren nestedDocument))
  = entriesAt 0 [branch "0:2" "CANVAS" [leaf "2:1" "STAR"]]
  /\ streamNodes (H := oneMB) defaultClient nestedDocument (Some "7")
     = (mkResult [] 0%Q None false, defaultClient).
Proof.
  destruct (@cursor_skips_top_level_only oneMB defaultClient nestedDocument)
    as (_ & Hskip & Hempty).
  split.
  - apply (Hskip "1" 1%Z). reflexivity.
  - apply (Hempty "7" 7%Z); [reflexivity | simpl; lia].
Defined.

(** ** Property filter and summaries *)

Lemma lookupKey_deleteKey (key prop : string) (ps : list (string * JSValue)) :
  lookupKey key (deleteKey prop ps)
  = if String.eqb key prop then None else lookupKey key ps.
Proof.
  induction ps as [|[k v] ps IH]; simpl.
  - now destruct (String.eqb key prop).
  - destruct (String.eqb_spec prop k) as [->|Hpk].
    + rewrite IH. destruct (String.eqb_spec key k) as [->|Hk]; reflexivity.
    + simpl. rewrite IH.
      destruct (String.eqb_spec key k) as [->|Hk]; [|reflexivity].
      destruct (String.eqb_spec k prop) as [->|]; [contradiction|reflexivity].
Qed.

Lemma getProp_deleteProp (key prop : string) (n : SceneNode) :
  prop <> "id" -> prop <> "type" ->
  getProp key (deleteProp prop n)
  = if String.eqb key prop then None else getProp key n.
Proof.
  intros Hid Hty. unfold deleteProp.
  destruct (String.eqb_spec prop "name") as [->|Hn].
  { unfold getProp. simpl.
    destruct (String.eqb_spec key "name") as [->|Hk]; [reflexivity|].
    repeat (destruct (String.eqb key _); [reflexivity|]). reflexivity. }
  destruct (String.eqb_spec prop "visible") as [->|Hv].
  { unfold getProp. simpl.
    destruct (String.eqb_spec key "visible") as [->|Hk]; [reflexivity|].
    repeat (destruct (String.eqb key _); [reflexivity|]). reflexivity. }
  destruct (String.eqb_spec prop "children") as [->|Hc].
  { unfold getProp. simpl.
    destruct (String.eqb_spec key "children") as [->|Hk]; [reflexivity|].
    repeat (destruct (String.eqb key _); [reflexivity|]). reflexivity. }
  unfold getProp. simpl. rewrite lookupKey_deleteKey.
  destruct (String.eqb_spec key prop) as [->|Hk].
  - repeat match goal with
           | |- context [String.eqb prop ?s] =>
               destruct (String.eqb_spec prop s); [congruence|]
           end.
    reflexivity.
  - reflexivity.
Qed.

Lemma getProp_excludeLoop (key : string) (excl : list string) :
  forall n,
    getProp key (excludeLoop excl n)
    = if bool_decide (key ∈ excl) && negb (String.eqb key "id")
         && negb (String.eqb key "type")
      then None else getProp key n.
Proof.
  induction excl as [|prop excl IH]; intros n; simpl.
  - reflexivity.
  - destruct (String.eqb_spec prop "id") as [->|Hid]; simpl.
    { rewrite IH. destruct (String.eqb_spec key "id") as [->|Hk].
      - now rewrite !andb_false_r.
      - simpl. destruct (String.eqb key "type"); simpl;
          [now rewrite !andb_false_r|].
        rewrite !andb_true_r.
        destruct (decide (key ∈ excl)) as [Hin|Hout].
        + rewrite !bool_decide_eq_true_2; [reflexivity| |assumption].
          now right.
        + rewrite !bool_decide_eq_false_2; [reflexivity| |assumption].
          intros Hc. apply elem_of_cons in Hc as [Hc|Hc]; congruence. }
    destruct (String.eqb_spec prop "type") as [->|Hty]; simpl.
    { rewrite IH. destruct (String.eqb_spec key "type") as [->|Hk].
      - now rewrite !andb_false_r.
      - simpl. rewrite !andb_true_r.
        destruct (String.eqb key "id"); simpl;
          [now rewrite !andb_false_r|].
        rewrite !andb_true_r.
        destruct (decide (key ∈ excl)) as [Hin|Hout].
        + rewrite !bool_decide_eq_true_2; [reflexivity| |assumption].
          now right.
        + rewrite !bool_decide_eq_false_2; [reflexivity| |assumption].
          intros Hc. apply elem_of_cons in Hc as [Hc|Hc]; congruence. }
    rewrite IH, (getProp_deleteProp _ _ _ Hid Hty).
    destruct (String.eqb_spec key prop) as [->|Hk].
    + rewrite (bool_decide_eq_true_2 (prop ∈ prop :: excl)) by left.
      destruct (String.eqb_spec prop "id"); [contradiction|].
      destruct (String.eqb_spec prop "type"); [contradiction|]. simpl.
      now destruct (bool_decide (prop ∈ excl)).
    + destruct (decide (key ∈ excl)) as [Hin|Hout].
      * rewrite !bool_decide_eq_true_2; [reflexivity| |assumption].
        now right.
      * rewrite !bool_decide_eq_false_2; [reflexivity| |assumption].
        intros Hc. apply elem_of_cons in Hc as [Hc|Hc]; congruence.
Qed.

(** X1. [filterNodeProperties] removes exactly the listed keys other
    than [id] and [type]: reading a removed key finds nothing, and every
    other key reads as before; [id] and [type] survive even when they are
    listed. *)
Theorem filterNodeProperties_reads (cfg : ChunkConfig) (node : SceneNode)
        (key : string) :
  getProp key (filterNodeProperties cfg node)
  = if isExcluded cfg key then None else getProp key node.
Proof.
  unfold filterNodeProperties, isExcluded.
  destruct (excludeProps cfg) as [[|prop excl]|]; simpl; try reflexivity.
  apply (getProp_excludeLoop key (prop :: excl)).
Qed.

(** X2. Summarizing is idempotent, keeps [id] and [type], and always
    sets [name] (to the empty string when missing) and [visible] (to true
    when missing). *)
Theorem summarizeNode_idempotent (node : SceneNode) :
  summarizeNode (summarizeNode node) = summarizeNode node
  /\ id (summarizeNode node) = id node
  /\ type (summarizeNode node) = type node
  /\ name (summarizeNode node) = Some (default "" (name node))
  /\ visible (summarizeNode node) = Some (default true (visible node)).
Proof.
  destruct node as [i t nm v cs ps].
  unfold summarizeNode. cbn [id type name visible children props].
  repeat match goal with
         | |- context [String.eqb t ?s] => destruct (String.eqb t s) eqn:?
         end;
    cbn [id type name visible children props];
    repeat match goal with
           | E : String.eqb t _ = _ |- _ => rewrite E
           end;
    repeat split; try reflexivity; destruct nm; destruct v; reflexivity.
Qed.

(** X3. A summary is shallow and closed: it has no [children] for
    VECTOR, STAR, LINE and TEXT, and for every other type, known or not,
    it carries the children of the node unchanged (not summarized), or an
    empty list when the node has none; and it never carries a key outside
    the thirteen keys of [summaryKeys]. *)
Theorem summarizeNode_shape (node : SceneNode) :
  children (summarizeNode node)
  = (if childlessSummary (type node) then None
     else Some (childrenOrEmpty node))
  /\ forall key, getProp key (summarizeNode node) <> None ->
                 key ∈ summaryKeys.
Proof.
  destruct node as [i t nm v cs ps]. split.
  - unfold summarizeNode, childlessSummary.
    cbn [id type name visible children props].
    destruct (String.eqb_spec t "FRAME") as [->|]; [reflexivity|].
    destruct (String.eqb_spec t "GROUP") as [->|]; [reflexivity|].
    destruct (String.eqb_spec t "VECTOR") as [->|]; [reflexivity|].
    destruct (String.eqb_spec t "BOOLEAN_OPERATION") as [->|]; [reflexivity|].
    destruct (String.eqb_spec t "STAR") as [->|]; [reflexivity|].
    destruct (String.eqb_spec t "LINE") as [->|]; [reflexivity|].
    destruct (String.eqb_spec t "TEXT") as [->|]; [reflexivity|].
    destruct (String.eqb_spec t "COMPONENT") as [->|]; [reflexivity|].
    destruct (String.eqb_spec t "INSTANCE") as [->|]; [reflexivity|].
    destruct (String.eqb_spec t "CANVAS") as [->|]; reflexivity.
  - intros key. unfold summarizeNode.
    cbn [id type name visible children props].
    repeat match goal with
           | |- context [String.eqb t ?s] => destruct (String.eqb t s)
           end;
      unfold getProp; cbn [id type name visible children props lookupKey];
      repeat match goal with
             | |- context [String.eqb key ?s] =>
                 destruct (String.eqb_spec key s) as [->|?]
             end;
      intros Hsome;
      solve [ exfalso; apply Hsome; reflexivity
            | apply (bool_decide_unpack _); vm_compute; exact I ].
Qed.

(** ** Where returned nodes come from *)

Lemma list_sum_elem (f : SceneNode -> nat) (c : SceneNode) (l : list SceneNode) :
  c ∈ l -> f c <= list_sum (map f l).
Proof.
  induction l as [|x l IH]; intros Hin; [inversion Hin|].
  apply elem_of_cons in Hin as [->|Hin]; simpl; [lia|].
  specialize (IH Hin). lia.
Qed.

(** Induction on a node, given the property for its children. *)
Lemma SceneNode_children_ind (P : SceneNode -> Prop) :
  (forall n, (forall c, c ∈ childrenOrEmpty n -> P c) -> P n) ->
  forall n, P n.
Proof.
  intros Hstep n.
  remember (nodeWeight n) as w eqn:Hw. revert n Hw.
  induction w as [w IH] using lt_wf_ind. intros n Hw.
  apply Hstep. intros c Hc. apply (IH (nodeWeight c)); [|reflexivity].
  subst w. rewrite (nodeWeight_unfold n).
  pose proof (list_sum_elem nodeWeight c _ Hc). lia.
Qed.

Lemma preorderAt_unfold (depth : nat) (n : SceneNode) :
  preorderAt depth n
  = (n, depth) :: flat_map (preorderAt (S depth)) (childrenOrEmpty n).
Proof. destruct n as [i t nm v [cs|] ps]; reflexivity. Qed.

Lemma flat_map_entriesAt (depth : nat) (ns : list SceneNode) :
  expandQueue (entriesAt depth ns) = flat_map (preorderAt depth) ns.
Proof.
  unfold expandQueue, entriesAt.
  induction ns as [|n ns IH]; simpl; [reflexivity|]. now rewrite IH.
Qed.

Lemma expandQueue_cons (node : SceneNode) (depth : nat)
      (queue : list QueueEntry) :
  expandQueue ((node, depth) :: queue)
  = (node, depth) :: expandQueue (pushChildren node depth queue).
Proof.
  unfold pushChildren.
  change (expandQueue ((node, depth) :: queue))
    with (preorderAt depth node ++ expandQueue queue).
  rewrite preorderAt_unfold.
  unfold expandQueue at 2. rewrite flat_map_app.
  fold (expandQueue (entriesAt (S depth) (childrenOrEmpty node))).
  now rewrite flat_map_entriesAt.
Qed.

(** Forgetting the depths gives the pre-order listing. *)
Lemma preorderAt_nodes (n : SceneNode) :
  forall depth, map fst (preorderAt depth n) = preorder n.
Proof.
  induction n as [n IH] using SceneNode_children_ind. intros depth.
  rewrite preorderAt_unfold, preorder_unfold. simpl. f_equal.
  unfold preorderAll.
  induction (childrenOrEmpty n) as [|c cs IHcs]; simpl; [reflexivity|].
  rewrite map_app, IH by left. f_equal.
  apply IHcs. intros c' Hc'. apply IH. now right.
Qed.

Lemma documentEntries_nodes (ns : list SceneNode) (depth : nat) :
  map fst (expandQueue (entriesAt depth ns)) = preorderAll ns.
Proof.
  rewrite flat_map_entriesAt. unfold preorderAll.
  rewrite !flat_map_concat_map, concat_map, map_map. f_equal.
  apply map_ext. intros n. apply preorderAt_nodes.
Qed.

Lemma sublist_map {A B : Type} (f : A -> B) (l1 l2 : list A) :
  l1 `sublist_of` l2 -> map f l1 `sublist_of` map f l2.
Proof.
  induction 1; simpl; [constructor | now constructor | now constructor].
Qed.

Lemma expandQueue_app (q1 q2 : list QueueEntry) :
  expandQueue (q1 ++ q2) = expandQueue q1 ++ expandQueue q2.
Proof. unfold expandQueue. apply flat_map_app. Qed.

(** The entries left by the skip loop stand for a part of the document. *)
Lemma expandQueue_skip (currentIndex : JSNumber) (queue : list QueueEntry) :
  expandQueue (skipToCursor currentIndex queue) `sublist_of` expandQueue queue.
Proof.
  assert (exists n, skipToCursor currentIndex queue = drop n queue) as [n ->].
  { destruct currentIndex as [k|].
    - exists (Z.to_nat k). apply skipToCursor_drop.
    - exists 0. now rewrite skipToCursor_NaN. }
  rewrite <- (take_drop n queue) at 2. rewrite expandQueue_app.
  apply sublist_inserts_l. reflexivity.
Qed.

Lemma deleteProp_type (prop : string) (n : SceneNode) :
  type (deleteProp prop n) = type n.
Proof.
  unfold deleteProp.
  repeat match goal with |- context [if ?b then _ else _] => destruct b end;
    reflexivity.
Qed.

Lemma excludeLoop_type (excl : list string) (n : SceneNode) :
  type (excludeLoop excl n) = type n.
Proof.
  revert n. induction excl as [|prop excl IH]; intros n; simpl; [reflexivity|].
  destruct (negb (String.eqb prop "id") && negb (String.eqb prop "type")).
  - rewrite IH. apply deleteProp_type.
  - apply IH.
Qed.

Lemma filterNodeProperties_type (cfg : ChunkConfig) (n : SceneNode) :
  type (filterNodeProperties cfg n) = type n.
Proof.
  unfold filterNodeProperties.
  destruct (excludeProps cfg) as [[|prop excl]|]; try reflexivity.
  apply excludeLoop_type.
Qed.

Lemma summarizeNode_type (n : SceneNode) : type (summarizeNode n) = type n.
Proof.
  unfold summarizeNode.
  repeat match goal with |- context [if ?b then _ else _] => destruct b end;
    reflexivity.
Qed.

Lemma transformNode_type (cfg : ChunkConfig) (n : SceneNode) :
  type (transformNode cfg n) = type n.
Proof.
  unfold transformNode. destruct (truthyBool (summarizeNodes cfg)).
  - rewrite summarizeNode_type. apply filterNodeProperties_type.
  - apply filterNodeProperties_type.
Qed.

Lemma sumSizes_snoc `{JsonByteLength} (ns : list SceneNode) (n : SceneNode) :
  (sumSizes (ns ++ [n]) == sumSizes ns + estimateNodeSize n)%Q.
Proof.
  induction ns as [|m ns IH]; simpl.
  - ring.
  - rewrite IH. ring.
Qed.

Section Provenance.

Context `{JsonByteLength}.

(** The loop returns, in order, the transforms of some of the nodes its
    queue stands for, each of which passed the type and depth checks. *)
Lemma streamLoop_provenance (pageSz fuel : nat) (p0 : StreamingNodeProcessor)
      (q0 : list QueueEntry) :
  exists l,
    l `sublist_of` expandQueue q0
    /\ loopResult (streamLoop fuel pageSz (mkLoop p0 q0 []))
       = map (fun e => transformNode (config p0) (fst e)) l
    /\ Forall (passesFilters (config p0)) l.
Proof.
  cut (config (loopProcessor (streamLoop fuel pageSz (mkLoop p0 q0 [])))
       = config p0
       /\ exists l,
           (l ++ expandQueue (loopQueue (streamLoop fuel pageSz
                                            (mkLoop p0 q0 []))))
             `sublist_of` expandQueue q0
           /\ loopResult (streamLoop fuel pageSz (mkLoop p0 q0 []))
              = map (fun e => transformNode (config p0) (fst e)) l
           /\ Forall (passesFilters (config p0)) l).
  { intros (_ & l & Hsub & Hres & Hall). exists l. split; [|auto].
    etransitivity; [|exact Hsub]. apply sublist_inserts_r. reflexivity. }
  apply (streamLoop_invariant pageSz
           (fun s =>
              config (loopProcessor s) = config p0
              /\ exists l,
                  (l ++ expandQueue (loopQueue s)) `sublist_of` expandQueue q0
                  /\ loopResult s
                     = map (fun e => transformNode (config p0) (fst e)) l
                  /\ Forall (passesFilters (config p0)) l)).
  - intros p node depth queue result (Hcfg & l & Hsub & Hres & Hall) _.
    cbn [loopProcessor loopQueue loopResult] in *.
    rewrite expandQueue_cons in Hsub. rewrite loopBody_eq.
    destruct (shouldProcessNode p node depth) eqn:E.
    + rewrite (processNode_admit _ _ _ E).
      cbn [fst snd loopProcessor loopQueue loopResult config].
      split; [exact Hcfg|]. exists (l ++ [(node, depth)]).
      apply shouldProcessNode_true in E as (_ & Hty & Hdep & _).
      rewrite Hcfg in Hty, Hdep. repeat split.
      * now rewrite <- app_assoc.
      * rewrite map_app, Hres, Hcfg. reflexivity.
      * apply Forall_app. split; [exact Hall|].
        apply Forall_singleton. split; assumption.
    + rewrite (processNode_reject _ _ _ E).
      cbn [fst snd loopProcessor loopQueue loopResult].
      split; [exact Hcfg|]. exists l. repeat split; try assumption.
      etransitivity; [|exact Hsub].
      apply sublist_app; [reflexivity|]. apply sublist_cons. reflexivity.
  - cbn [loopProcessor loopQueue loopResult]. split; [reflexivity|].
    exists []. repeat split; [reflexivity | constructor].
Qed.

(** The same for a call: the entries come from the document. *)
Lemma streamNodes_provenance (c : ChunkedFigmaClient) (document : DocumentNode)
      (cursor : option string) :
  exists l,
    l `sublist_of` documentEntries document
    /\ nodes (fst (streamNodes c document cursor))
       = map (fun e => transformNode (config (nodeProcessor c)) (fst e)) l
    /\ Forall (passesFilters (config (nodeProcessor c))) l.
Proof.
  unfold streamNodes. cbn [fst nodes].
  destruct (streamLoop_provenance (pageSize (clientConfig c))
              (queueWeight (skipToCursor (cursorIndex cursor)
                              (entriesAt 0 (documentChildren document))))
              (nodeProcessor c)
              (skipToCursor (cursorIndex cursor)
                 (entriesAt 0 (documentChildren document))))
    as (l & Hsub & Hres & Hall).
  exists l. repeat split; try assumption.
  etransitivity; [exact Hsub|]. apply expandQueue_skip.
Qed.

(** X4. Whatever the filters, the page size, the budget and the cursor,
    a call returns the transforms of some of the document's nodes, in the
    order in which the pre-order, depth-first walk lists them: filtering
    and stopping leave nodes out but never reorder or invent any. *)
Theorem streamNodes_follows_preorder (c : ChunkedFigmaClient)
        (document : DocumentNode) (cursor : option string) :
  exists picked,
    picked `sublist_of` preorderAll (documentChildren document)
    /\ nodes (fst (streamNodes c document cursor))
       = map (transformNode (config (nodeProcessor c))) picked.
Proof.
  destruct (streamNodes_provenance c document cursor) as (l & Hsub & Hres & _).
  exists (map fst l). split.
  - rewrite <- (documentEntries_nodes (documentChildren document) 0).
    apply sublist_map. exact Hsub.
  - rewrite Hres, map_map. reflexivity.
Qed.

(** X5. With a type list configured, every returned node has a listed
    type; in particular an empty list, which JavaScript takes for a
    configured one, makes every call return no node. *)
Theorem streamNodes_type_filter (c : ChunkedFigmaClient)
        (document : DocumentNode) (cursor : option string) (ts : list string) :
  nodeTypes (config (nodeProcessor c)) = Some ts ->
  (forall n, n ∈ nodes (fst (streamNodes c document cursor)) -> type n ∈ ts)
  /\ (ts = [] -> nodes (fst (streamNodes c document cursor)) = []).
Proof.
  intros Hts.
  destruct (streamNodes_provenance c document cursor) as (l & _ & Hres & Hall).
  assert (forall n, n ∈ nodes (fst (streamNodes c document cursor)) ->
                    type n ∈ ts) as Hin.
  { intros n Hn. rewrite Hres in Hn.
    apply list_elem_of_fmap in Hn as (e & -> & He).
    rewrite transformNode_type.
    rewrite Forall_forall in Hall. now apply (Hall e He). }
  split; [exact Hin|]. intros ->.
  destruct (nodes (fst (streamNodes c document cursor))) as [|n ns];
    [reflexivity|].
  specialize (Hin n (list_elem_of_here _ _)). inversion Hin.
Qed.

(** X6. With a depth limit configured, every returned node is the
    transform of a node that the document holds at a depth within the
    limit (top-level children being at depth 0). *)
Theorem streamNodes_depth_filter (c : ChunkedFigmaClient)
        (document : DocumentNode) (cursor : option string) (limit : nat) :
  maxDepth (config (nodeProcessor c)) = Some limit ->
  forall n, n ∈ nodes (fst (streamNodes c document cursor)) ->
    exists m depth,
      (m, depth) ∈ documentEntries document
      /\ depth <= limit
      /\ n = transformNode (config (nodeProcessor c)) m.
Proof.
  intros Hlimit n Hn.
  destruct (streamNodes_provenance c document cursor)
    as (l & Hsub & Hres & Hall).
  rewrite Hres in Hn. apply list_elem_of_fmap in Hn as ([m depth] & -> & He).
  exists m, depth. repeat split.
  - apply (sublist_subseteq _ _ Hsub). exact He.
  - rewrite Forall_forall in Hall. now apply (Hall _ He).
Qed.

End Provenance.

(** ** Accounting across a call *)

Section Accounting.

Context `{JsonByteLength}.

(** The loop never lets the result grow past the page size. *)
Lemma streamLoop_page_bound (pageSz fuel : nat) (s : LoopState) :
  length (loopResult s) <= pageSz ->
  length (loopResult (streamLoop fuel pageSz s)) <= pageSz.
Proof.
  apply (streamLoop_invariant pageSz
           (fun s' => length (loopResult s') <= pageSz)).
  intros p node depth queue result _ Hlt. rewrite loopBody_eq.
  cbn [fst loopResult].
  destruct (fst (processNode p node depth)); [|lia].
  rewrite length_app. simpl. lia.
Qed.

(** X7. The [memoryUsage] a call reports is the accumulator the client
    had before the call plus the estimated sizes of the nodes the call
    returns, as returned (after property filter and summary): it is
    cumulative over the calls on a processor, and nodes that were skipped
    add nothing. *)
Theorem streamNodes_memoryUsage (c : ChunkedFigmaClient)
        (document : DocumentNode) (cursor : option string) :
  (memoryUsage (fst (streamNodes c document cursor))
   == currentSize (nodeProcessor c)
      + sumSizes (nodes (fst (streamNodes c document cursor))))%Q
  /\ currentSize (nodeProcessor (snd (streamNodes c document cursor)))
     = memoryUsage (fst (streamNodes c document cursor)).
Proof.
  unfold streamNodes, getCurrentSize. cbn [fst snd nodes memoryUsage nodeProcessor].
  split; [|reflexivity].
  apply (streamLoop_invariant (pageSize (clientConfig c))
           (fun s =>
              (currentSize (loopProcessor s)
               == currentSize (nodeProcessor c) + sumSizes (loopResult s))%Q)).
  - intros p node depth queue result Hinv _.
    cbn [loopProcessor loopResult] in Hinv. rewrite loopBody_eq.
    destruct (shouldProcessNode p node depth) eqn:E.
    + rewrite (processNode_admit _ _ _ E).
      cbn [fst snd loopProcessor loopResult currentSize].
      rewrite sumSizes_snoc, Hinv. ring.
    + rewrite (processNode_reject _ _ _ E).
      cbn [fst snd loopProcessor loopResult]. exact Hinv.
  - cbn [loopProcessor loopResult sumSizes foldr]. ring.
Qed.

(** X8. A call adds to the dedup set exactly one id per node it returns,
    so the processed count grows by the number of returned nodes; the
    cursor of a call that reports more data is the decimal form of the
    count before the call plus the number of nodes returned. *)
Theorem streamNodes_processed_count (c : ChunkedFigmaClient)
        (document : DocumentNode) (cursor : option string) :
  getProcessedCount (nodeProcessor (snd (streamNodes c document cursor)))
  = getProcessedCount (nodeProcessor c)
    + length (nodes (fst (streamNodes c document cursor)))
  /\ nextCursor (fst (streamNodes c document cursor))
     = (if hasMore (fst (streamNodes c document cursor))
        then Some (toString
                     (getProcessedCount (nodeProcessor c)
                      + length (nodes (fst (streamNodes c document cursor)))))
        else None).
Proof.
  assert (getProcessedCount
            (nodeProcessor (snd (streamNodes c document cursor)))
          = getProcessedCount (nodeProcessor c)
            + length (nodes (fst (streamNodes c document cursor)))) as Hcount.
  { unfold streamNodes, getProcessedCount.
    cbn [fst snd nodes nodeProcessor].
    apply (streamLoop_invariant (pageSize (clientConfig c))
             (fun s =>
                size (processedNodes (loopProcessor s))
                = size (processedNodes (nodeProcessor c))
                  + length (loopResult s))).
    - intros p node depth queue result Hinv _.
      cbn [loopProcessor loopResult] in Hinv. rewrite loopBody_eq.
      destruct (shouldProcessNode p node depth) eqn:E.
      + rewrite (processNode_admit _ _ _ E).
        cbn [fst snd loopProcessor loopResult processedNodes].
        apply shouldProcessNode_true in E as (Hfresh & _).
        rewrite size_union by (apply disjoint_singleton_l; exact Hfresh).
        rewrite size_singleton, length_app, Hinv. simpl. lia.
      + rewrite (processNode_reject _ _ _ E).
        cbn [fst snd loopProcessor loopResult]. exact Hinv.
    - cbn [loopProcessor loopResult length]. lia. }
  split; [exact Hcount|]. rewrite <- Hcount.
  unfold streamNodes. cbn [fst snd nodes nextCursor hasMore nodeProcessor].
  reflexivity.
Qed.

(** X9. A call reports more data only when it stopped on a full page or
    on the size limit: if [hasMore] is true, the call returned exactly
    [pageSize] nodes or the reported [memoryUsage] has reached the limit. *)
Theorem streamNodes_stop_reason (c : ChunkedFigmaClient)
        (document : DocumentNode) (cursor : option string) :
  hasMore (fst (streamNodes c document cursor)) = true ->
  length (nodes (fst (streamNodes c document cursor)))
  = pageSize (clientConfig c)
  \/ (sizeLimit (config (nodeProcessor c))
      <= memoryUsage (fst (streamNodes c document cursor)))%Q.
Proof.
  unfold streamNodes, getCurrentSize.
  cbn [fst nodes hasMore memoryUsage].
  set (queue := skipToCursor (cursorIndex cursor)
                  (entriesAt 0 (documentChildren document))).
  set (s0 := mkLoop (nodeProcessor c) queue []).
  intros Hmore.
  pose proof (streamLoop_page_bound (pageSize (clientConfig c))
                (queueWeight queue) s0 (Nat.le_0_l _)) as Hbound.
  destruct (streamLoop_exit (pageSize (clientConfig c)) (queueWeight queue) s0)
    as [Hempty|[Hfull|Hlimit]]; [reflexivity| | |].
  - rewrite Hempty in Hmore. discriminate Hmore.
  - left. lia.
  - right. unfold hasReachedLimit in Hlimit. apply Qle_bool_iff in Hlimit.
    destruct (streamLoop_monotone (pageSize (clientConfig c))
                (queueWeight queue) s0) as (_ & _ & _ & Hcfg).
    rewrite Hcfg in Hlimit. exact Hlimit.
Qed.

(** X10. Once every node of a document has its id in the dedup set of
    a client, a call on that client, with any cursor, returns no node and
    leaves the client as it was. *)
Theorem streamNodes_nothing_new (c : ChunkedFigmaClient)
        (document : DocumentNode) (cursor : option string) :
  (forall n, n ∈ preorderAll (documentChildren document) ->
             id n ∈ processedNodes (nodeProcessor c)) ->
  nodes (fst (streamNodes c document cursor)) = []
  /\ snd (streamNodes c document cursor) = c.
Proof.
  intros Hseen. unfold streamNodes. cbn [fst snd nodes].
  set (queue := skipToCursor (cursorIndex cursor)
                  (entriesAt 0 (documentChildren document))).
  assert (forall e, e ∈ expandQueue queue ->
                    id (fst e) ∈ processedNodes (nodeProcessor c)) as Hq.
  { intros e He. apply Hseen.
    rewrite <- (documentEntries_nodes (documentChildren document) 0).
    apply list_elem_of_fmap. exists e. split; [reflexivity|].
    apply (sublist_subseteq _ _
             (expandQueue_skip (cursorIndex cursor)
                (entriesAt 0 (documentChildren document)))).
    exact He. }
  assert (loopProcessor (streamLoop (queueWeight queue)
                           (pageSize (clientConfig c))
                           (mkLoop (nodeProcessor c) queue []))
          = nodeProcessor c
          /\ loopResult (streamLoop (queueWeight queue)
                           (pageSize (clientConfig c))
                           (mkLoop (nodeProcessor c) queue [])) = [])
    as [Hp Hr].
  { cut (loopProcessor (streamLoop (queueWeight queue)
                          (pageSize (clientConfig c))
                          (mkLoop (nodeProcessor c) queue []))
         = nodeProcessor c
         /\ loopResult (streamLoop (queueWeight queue)
                          (pageSize (clientConfig c))
                          (mkLoop (nodeProcessor c) queue [])) = []
         /\ forall e,
             e ∈ expandQueue
                   (loopQueue (streamLoop (queueWeight queue)
                                 (pageSize (clientConfig c))
                                 (mkLoop (nodeProcessor c) queue []))) ->
             id (fst e) ∈ processedNodes (nodeProcessor c)).
    { intros (H1 & H2 & _). now split. }
    apply (streamLoop_invariant (pageSize (clientConfig c))
             (fun s =>
                loopProcessor s = nodeProcessor c
                /\ loopResult s = []
                /\ forall e, e ∈ expandQueue (loopQueue s) ->
                             id (fst e) ∈ processedNodes (nodeProcessor c))).
    - intros p node depth q result (Hp & Hr & Hall) _.
      cbn [loopProcessor loopQueue loopResult] in *. subst p result.
      rewrite expandQueue_cons in Hall. rewrite loopBody_eq.
      assert (shouldProcessNode (nodeProcessor c) node depth = false) as E.
      { destruct (shouldProcessNode (nodeProcessor c) node depth) eqn:E;
          [|reflexivity].
        apply shouldProcessNode_true in E as (Hfresh & _).
        exfalso. apply Hfresh. apply (Hall (node, depth)). left. }
      rewrite (processNode_reject _ _ _ E).
      cbn [fst snd loopProcessor loopQueue loopResult].
      repeat split. intros e He. apply Hall. now right.
    - cbn [loopProcessor loopQueue loopResult]. repeat split. exact Hq. }
  split; [exact Hr|]. rewrite Hp. destruct c; reflexivity.
Qed.

End Accounting.

(** ** Cursors read back *)

Lemma parseDigits_uint (d : Decimal.uint) :
  forall acc : nat,
    parseDigits (NilEmpty.string_of_uint d) (Some (Z.of_nat acc))
    = Some (Z.of_nat (Nat.of_uint_acc d acc)).
Proof.
  induction d as [|d IH|d IH|d IH|d IH|d IH|d IH|d IH|d IH|d IH|d IH];
    intros acc; [reflexivity|..];
    cbn [NilEmpty.string_of_uint parseDigits Nat.of_uint_acc];
    match goal with
    | |- context [digitValue ?ch] =>
        change (digitValue ch) with (Some (Z.of_nat (nat_of_ascii ch - 48)))
    end;
    cbn [nat_of_ascii default]; rewrite <- IH; do 2 f_equal;
    rewrite Nat.tail_mul_spec; simpl Nat.sub; unfold Datatypes.id; lia.
Qed.

Lemma parseInt_uint (d : Decimal.uint) :
  parseInt (NilZero.string_of_uint d) = Some (Z.of_nat (Nat.of_uint d))
  /\ NilZero.string_of_uint d <> EmptyString.
Proof.
  destruct d; (split; [|discriminate]); try reflexivity;
    unfold parseInt, NilZero.string_of_uint, Nat.of_uint;
    cbn [NilEmpty.string_of_uint];
    match goal with
    | |- context [trimStart (String ?ch ?r)] =>
        replace (trimStart (String ch r)) with (String ch r)
          by (destruct r as [|c2 [|c3 r']]; reflexivity)
    end;
    cbv beta iota zeta; cbn [parseDigits];
    match goal with
    | |- context [digitValue ?ch] =>
        change (digitValue ch) with (Some (Z.of_nat (nat_of_ascii ch - 48)))
    end;
    cbv beta iota;
    match goal with
    | |- context [parseDigits ?s (Some ?z)] =>
        change z with (Z.of_nat (Z.to_nat z))
    end;
    rewrite parseDigits_uint, Z.mul_1_l; reflexivity.
Qed.

(** X11. The cursor a call hands out is read back as the count it
    encodes: [parseInt] of the decimal form of [n] is [n], so passing it
    as the cursor makes the skip loop drop exactly the first [n] entries
    of the queue. *)
Theorem cursor_round_trip (n : nat) (queue : list QueueEntry) :
  parseInt (toString n) = Some (Z.of_nat n)
  /\ cursorIndex (Some (toString n)) = Some (Z.of_nat n)
  /\ skipToCursor (cursorIndex (Some (toString n))) queue = drop n queue.
Proof.
  assert (parseInt (toString n) = Some (Z.of_nat n)) as Hparse.
  { unfold toString.
    destruct (parseInt_uint (Nat.to_uint n)) as [-> _].
    now rewrite DecimalNat.Unsigned.of_to. }
  assert (cursorIndex (Some (toString n)) = Some (Z.of_nat n)) as Hidx
      by (apply cursorIndex_parse, Hparse).
  repeat split; try assumption.
  rewrite Hidx, skipToCursor_drop. now rewrite Nat2Z.id.
Qed.

(** ** The constructor and the configuration of later calls *)

Lemma truthyQ_orElse (a : option Q) :
  truthyQ (orElseQ a 50) = true.
Proof.
  unfold orElseQ. destruct a as [x|]; [|reflexivity].
  destruct (truthyQ x) eqn:E; [exact E | reflexivity].
Qed.

(** X12. A client built by the constructor has a fresh processor that
    shares its configuration, and a size limit that is the given
    [maxResponseSize], or 50 when that is missing or zero; the limit is
    never zero and the [maxMemoryMB] given to the constructor has no
    effect on it. *)
Theorem newClient_defaults (cfg : PartialChunkConfig) (memory : option Q) :
  nodeProcessor (newClient cfg) = newProcessor (clientConfig (newClient cfg))
  /\ sizeLimit (clientConfig (newClient cfg))
     = orElseQ (mjoin (pMaxResponseSize cfg)) 50
  /\ ~ (sizeLimit (clientConfig (newClient cfg)) == 0)%Q
  /\ sizeLimit
       (clientConfig
          (newClient
             (mkPartial (pPageSize cfg) memory (pNodeTypes cfg)
                (pMaxDepth cfg) (pExcludeProps cfg) (pMaxResponseSize cfg)
                (pSummarizeNodes cfg))))
     = sizeLimit (clientConfig (newClient cfg)).
Proof.
  assert (forall cfg', sizeLimit (clientConfig (newClient cfg'))
                       = orElseQ (mjoin (pMaxResponseSize cfg')) 50) as Hlim.
  { intros cfg'. unfold sizeLimit, newClient.
    cbn [clientConfig maxResponseSize maxMemoryMB].
    unfold orElseQ at 1. now rewrite truthyQ_orElse. }
  repeat split.
  - apply Hlim.
  - rewrite Hlim. intros Hzero.
    pose proof (truthyQ_orElse (mjoin (pMaxResponseSize cfg))) as Ht.
    unfold truthyQ in Ht. apply negb_true_iff in Ht.
    apply Qeq_bool_iff in Hzero. congruence.
  - now rewrite !Hlim.
Qed.

Section ClientConfig.

Context `{JsonByteLength}.

(** X13. The processor and the client never disagree on the
    configuration: after any call of [getFileInfoChunked], whether it
    returned or threw, the processor holds the client's configuration,
    which is the merged one when a configuration was passed and the
    former one otherwise. *)
Theorem getFileInfoChunked_shares_config (c : ChunkedFigmaClient)
        (response : FetchOutcome) (cursor : option string)
        (cfg : option PartialChunkConfig) :
  config (nodeProcessor c) = clientConfig c ->
  config (nodeProcessor (snd (getFileInfoChunked c response cursor cfg)))
  = clientConfig (snd (getFileInfoChunked c response cursor cfg))
  /\ clientConfig (snd (getFileInfoChunked c response cursor cfg))
     = match cfg with
       | Some upd => mergeConfig (clientConfig c) upd
       | None => clientConfig c
       end.
Proof.
  intros Hshared. unfold getFileInfoChunked.
  set (c1 := match cfg with
             | Some upd =>
                 mkClient (mergeConfig (clientConfig c) upd)
                          (newProcessor (mergeConfig (clientConfig c) upd))
             | None => c
             end).
  assert (config (nodeProcessor c1) = clientConfig c1) as H1
      by (destruct cfg; [reflexivity | exact Hshared]).
  assert (clientConfig c1
          = match cfg with
            | Some upd => mergeConfig (clientConfig c) upd
            | None => clientConfig c
            end) as H2 by (destruct cfg; reflexivity).
  destruct response as [[document|]|msg]; cbn [snd]; try (split; assumption).
  unfold streamNodes. cbn [snd clientConfig nodeProcessor].
  split; [|exact H2].
  destruct (streamLoop_monotone (pageSize (clientConfig c1))
              (queueWeight (skipToCursor (cursorIndex cursor)
                              (entriesAt 0 (documentChildren document))))
              (mkLoop (nodeProcessor c1)
                 (skipToCursor (cursorIndex cursor)
                    (entriesAt 0 (documentChildren document))) []))
    as (_ & _ & _ & Hcfg).
  cbn [loopProcessor] in Hcfg. now rewrite Hcfg.
Qed.

(** X14. Only the constructor replaces a page size of zero: a call
    that passes [pageSize: 0] gets no node back, whatever the document,
    and is told that more data remains as soon as the queue left by the
    cursor is not empty. *)
Theorem getFileInfoChunked_page_zero (c : ChunkedFigmaClient)
        (document : DocumentNode) (cursor : option string)
        (upd : PartialChunkConfig) :
  pPageSize upd = Some 0 ->
  exists r,
    fst (getFileInfoChunked c (FetchData (Some document)) cursor (Some upd))
    = Returned r
    /\ nodes r = []
    /\ memoryUsage r = 0%Q
    /\ hasMore r
       = (0 <? length (skipToCursor (cursorIndex cursor)
                         (entriesAt 0 (documentChildren document)))).
Proof.
  intros Hzero. unfold getFileInfoChunked, streamNodes.
  cbn [fst clientConfig nodeProcessor].
  rewrite streamLoop_full.
  - eexists. split; [reflexivity|]. repeat split.
  - cbn [loopResult length]. unfold mergeConfig. cbn [pageSize].
    rewrite Hzero. simpl. lia.
Qed.

End ClientConfig.

(** ** getFileNodes *)

Lemma take_plus {A : Type} (l : list A) (i n : nat) :
  take (i + n) l = take i l ++ take n (drop i l).
Proof.
  revert l. induction i as [|i IH]; intros l; [reflexivity|].
  destruct l as [|x l]; simpl.
  - now rewrite take_nil.
  - now rewrite IH.
Qed.

Section FileNodesFacts.

Context {V : Type}.
Variable fetchNodes : string -> Outcome (gmap string V).

Lemma sliced_snoc (ids : list string) (requests : list (list string)) :
  sliced ids requests ->
  chunkSize * length requests < length ids ->
  sliced ids (requests
                ++ [take chunkSize (drop (chunkSize * length requests) ids)]).
Proof.
  intros Hs Hlt j ch Hj.
  destruct (Nat.lt_ge_cases j (length requests)) as [Hin|Hout].
  - rewrite lookup_app_l in Hj by exact Hin. now apply Hs.
  - rewrite lookup_app_r in Hj by exact Hout.
    destruct (j - length requests) as [|k] eqn:Ek; [|discriminate Hj].
    assert (j = length requests) as -> by lia.
    simpl in Hj. injection Hj as <-. split; [reflexivity | exact Hlt].
Qed.

Lemma fetchChunks_ok (p : StreamingNodeProcessor) (ids : list string) :
  hasReachedLimit p = false ->
  (forall param, exists data, fetchNodes param = Returned data) ->
  forall fuel chunks requests,
    length ids <= chunkSize * length requests + chunkSize * fuel ->
    concat requests = take (chunkSize * length requests) ids ->
    sliced ids requests ->
    Forall2 (fun ch data => fetchNodes (joinComma ch) = Returned data)
            requests chunks ->
    exists chunks' requests',
      fetchChunks fetchNodes fuel (chunkSize * length requests) p ids
                  chunks requests
      = (Returned chunks', requests')
      /\ concat requests' = ids
      /\ length ids <= chunkSize * length requests'
      /\ sliced ids requests'
      /\ Forall2 (fun ch data => fetchNodes (joinComma ch) = Returned data)
                 requests' chunks'.
Proof.
  intros Hlimit Hfetch.
  induction fuel as [|fuel IH]; intros chunks requests Hfuel Hcat Hs Hans.
  - exists chunks, requests.
    assert (length ids <= chunkSize * length requests) as Hle
        by (unfold chunkSize in *; lia).
    split; [reflexivity|]. split; [rewrite Hcat; now apply take_ge|].
    split; [exact Hle|]. split; assumption.
  - cbn [fetchChunks].
    destruct (Nat.ltb_spec (chunkSize * length requests) (length ids))
      as [Hlt|Hge].
    + rewrite Hlimit.
      set (chunkIds := take chunkSize
                         (drop (chunkSize * length requests) ids)).
      destruct (Hfetch (joinComma chunkIds)) as [data Hdata]. rewrite Hdata.
      assert (length (requests ++ [chunkIds]) = S (length requests)) as Hsnoc
          by (rewrite length_app; cbn [length]; lia).
      replace (chunkSize * length requests + chunkSize)
        with (chunkSize * length (requests ++ [chunkIds]))
        by (rewrite Hsnoc; unfold chunkSize; lia).
      apply IH.
      * rewrite Hsnoc. unfold chunkSize in *. lia.
      * rewrite concat_app, Hcat. cbn [concat]. rewrite app_nil_r, Hsnoc.
        replace (chunkSize * S (length requests))
          with (chunkSize * length requests + chunkSize)
          by (unfold chunkSize; lia).
        now rewrite take_plus.
      * now apply sliced_snoc.
      * apply Forall2_app; [exact Hans|]. now repeat constructor.
    + exists chunks, requests.
      split; [reflexivity|]. split; [rewrite Hcat; now apply take_ge|].
      split; [exact Hge|]. split; assumption.
Qed.

(** X15. When the limit is not reached and every request answers,
    [getFileNodes] returns, and the requests it made are the consecutive
    slices of fifty ids: request [j] asks for [ids[50j .. 50j+50)], no
    request is empty, and together they list the ids once, in order. *)
Theorem getFileNodes_requests (c : ChunkedFigmaClient) (ids : list string) :
  hasReachedLimit (nodeProcessor c) = false ->
  (forall param, exists data, fetchNodes param = Returned data) ->
  (exists merged, fst (getFileNodes fetchNodes c ids) = Returned merged)
  /\ concat (snd (getFileNodes fetchNodes c ids)) = ids
  /\ length ids <= 50 * length (snd (getFileNodes fetchNodes c ids))
  /\ forall j ch,
      snd (getFileNodes fetchNodes c ids) !! j = Some ch ->
      ch = take 50 (drop (50 * j) ids) /\ 50 * j < length ids.
Proof.
  intros Hlimit Hfetch. unfold getFileNodes.
  destruct (fetchChunks_ok (nodeProcessor c) ids Hlimit Hfetch
              (length ids) [] [])
    as (chunks & requests & Heq & Hcat & Hlen & Hs & _).
  - unfold chunkSize. simpl. lia.
  - reflexivity.
  - intros j ch Hj. discriminate Hj.
  - constructor.
  - change (chunkSize * length (@nil (list string))) with 0 in Heq.
    rewrite Heq. cbn [fst snd].
    split; [now eexists|]. repeat split; try assumption.
    + apply (Hs j ch). assumption.
    + apply (Hs j ch). assumption.
Qed.

(** X16. With no id, [getFileNodes] makes no request and returns an
    empty object, even when the limit is reached; with at least one id
    and the limit reached, it throws before making any request. *)
Theorem getFileNodes_limit (c : ChunkedFigmaClient) (ids : list string) :
  (ids = [] -> getFileNodes fetchNodes c ids = (Returned ∅, []))
  /\ (ids <> [] -> hasReachedLimit (nodeProcessor c) = true ->
      getFileNodes fetchNodes c ids
      = (Thrown "Memory limit exceeded while processing nodes", [])).
Proof.
  split.
  - intros ->. reflexivity.
  - intros Hne Hlimit. destruct ids as [|x ids]; [contradiction|].
    unfold getFileNodes. simpl. now rewrite Hlimit.
Qed.





(** X18. When [getFileNodes] throws, either the limit was reached and
    no request was made, or the last request made is the one that threw
    the same error: nothing is asked after a failed request. *)
Theorem getFileNodes_error (c : ChunkedFigmaClient) (ids : list string)
        (message : string) :
  fst (getFileNodes fetchNodes c ids) = Thrown message ->
  (hasReachedLimit (nodeProcessor c) = true
   /\ snd (getFileNodes fetchNodes c ids) = []
   /\ message = "Memory limit exceeded while processing nodes")
  \/ exists ch,
      last (snd (getFileNodes fetchNodes c ids)) = Some ch
      /\ fetchNodes (joinComma ch) = Thrown message.
Proof.
  unfold getFileNodes.
  destruct (fetchChunks fetchNodes (length ids) 0 (nodeProcessor c) ids [] [])
    as [[chunks|msg] requests] eqn:Heq; cbn [fst snd]; [discriminate|].
  intros [= ->].
  assert (forall fuel i chunks0 requests0,
             fetchChunks fetchNodes fuel i (nodeProcessor c) ids
                         chunks0 requests0
             = (Thrown message, requests) ->
             (hasReachedLimit (nodeProcessor c) = true
              /\ requests = requests0
              /\ message = "Memory limit exceeded while processing nodes")
             \/ exists ch, last requests = Some ch
                           /\ fetchNodes (joinComma ch) = Thrown message)
    as Hloop.
  { induction fuel as [|fuel IH]; intros i chunks0 requests0 Hrun;
      simpl in Hrun; [discriminate Hrun|].
    destruct (i <? length ids); [|discriminate Hrun].
    destruct (hasReachedLimit (nodeProcessor c)) eqn:Hlimit.
    - injection Hrun as <- <-. left. auto.
    - destruct (fetchNodes (joinComma (take chunkSize (drop i ids))))
        as [data|msg] eqn:Hdata.
      + destruct (IH _ _ _ Hrun) as [(Hl & _)|Hlast]; [congruence|].
        now right.
      + injection Hrun as <- <-. right.
        exists (take chunkSize (drop i ids)). split; [|exact Hdata].
        apply last_snoc. }
  destruct (Hloop _ _ _ _ Heq) as [(Hl & -> & Hm)|Hlast]; [left|right]; auto.
Qed.

End FileNodesFacts.

(** ** A call that stops on the limit and the calls after it *)

Section AfterTheLimit.

Context `{JsonByteLength}.
Context {V : Type}.
Variable fetchNodes : string -> Outcome (gmap string V).

(** X19. The processor outlives the call: when a call of [streamNodes]
    reports more data without having filled its page, the limit is
    reached in the client it leaves, and [getFileNodes] on that client,
    for any non-empty list of ids, throws without making a request. *)
Theorem limit_reached_blocks_getFileNodes (c : ChunkedFigmaClient)
        (document : DocumentNode) (cursor : option string)
        (ids : list string) :
  hasMore (fst (streamNodes c document cursor)) = true ->
  length (nodes (fst (streamNodes c document cursor)))
  < pageSize (clientConfig c) ->
  ids <> [] ->
  hasReachedLimit (nodeProcessor (snd (streamNodes c document cursor))) = true
  /\ getFileNodes fetchNodes (snd (streamNodes c document cursor)) ids
     = (Thrown "Memory limit exceeded while processing nodes", []).
Proof.
  intros Hmore Hshort Hids.
  assert (hasReachedLimit
            (nodeProcessor (snd (streamNodes c document cursor))) = true)
    as Hlimit.
  { revert Hmore Hshort. unfold streamNodes.
    cbn [fst snd nodes hasMore nodeProcessor].
    set (queue := skipToCursor (cursorIndex cursor)
                    (entriesAt 0 (documentChildren document))).
    set (s0 := mkLoop (nodeProcessor c) queue []).
    intros Hmore Hshort.
    destruct (streamLoop_exit (pageSize (clientConfig c))
                (queueWeight queue) s0)
      as [Hempty|[Hfull|Hlimit]]; [reflexivity| | |exact Hlimit].
    - rewrite Hempty in Hmore. discriminate Hmore.
    - lia. }
  split; [exact Hlimit|].
  destruct ids as [|x ids]; [contradiction|].
  unfold getFileNodes.
  set (p := nodeProcessor (snd (streamNodes c document cursor))) in *.
  simpl. now rewrite Hlimit.
Qed.

End AfterTheLimit.

(** ** The client that lists all nodes first *)

Lemma list_sum_nodeWeight_zero (queue : list SceneNode) :
  list_sum (map nodeWeight queue) = 0 -> queue = [].
Proof.
  destruct queue as [|n queue]; [reflexivity|].
  simpl. rewrite nodeWeight_unfold. lia.
Qed.

Lemma allNodesLoop_spec :
  forall fuel queue allNodes,
    list_sum (map nodeWeight queue) <= fuel ->
    Permutation (Listing.allNodesLoop fuel queue allNodes)
                (allNodes ++ preorderAll queue)
    /\ (allNodes ++ queue) `prefix_of` Listing.allNodesLoop fuel queue allNodes.
Proof.
  induction fuel as [|fuel IH]; intros queue allNodes Hfuel.
  - assert (queue = []) as -> by (apply list_sum_nodeWeight_zero; lia).
    simpl. rewrite app_nil_r. split; reflexivity.
  - destruct queue as [|node queue]; simpl.
    { rewrite app_nil_r. split; reflexivity. }
    simpl in Hfuel. rewrite nodeWeight_unfold in Hfuel.
    destruct (IH (queue ++ childrenOrEmpty node) (allNodes ++ [node]))
      as [Hperm Hpre].
    { rewrite map_app, list_sum_app. lia. }
    split.
    + rewrite Hperm, preorderAll_app, <- app_assoc. simpl.
      apply Permutation_app_head.
      rewrite preorder_unfold. simpl. apply perm_skip.
      apply Permutation_app_comm.
    + etransitivity; [|exact Hpre].
      exists (childrenOrEmpty node). now rewrite <- !app_assoc.
Qed.

(** X20. [getAllNodes] lists every node of the document exactly once:
    its result is a rearrangement of the pre-order listing, and, the walk
    being breadth-first, it starts with the top-level children in
    document order. *)
Theorem getAllNodes_breadth_first (document : DocumentNode) :
  Permutation (Listing.getAllNodes document)
              (preorderAll (documentChildren document))
  /\ take (length (documentChildren document)) (Listing.getAllNodes document)
     = documentChildren document.
Proof.
  unfold Listing.getAllNodes.
  destruct (allNodesLoop_spec
              (list_sum (map nodeWeight (documentChildren document)))
              (documentChildren document) [] (Nat.le_refl _))
    as [Hperm [rest Hpre]].
  split; [exact Hperm|].
  simpl in Hpre. rewrite Hpre. now rewrite take_app_length.
Qed.

Section ListingFacts.

Variable heapUsed : nat -> N.

Lemma chunkLoop_nat (fuel : nat) (allNodes : list SceneNode) (k : nat)
      (result : list SceneNode) (c : Listing.ChunkedFigmaClient) (clock : nat) :
  Listing.chunkLoop heapUsed (S fuel) allNodes (Z.of_nat k) result c clock
  = if negb (k <? length allNodes)
    then (Returned (Z.of_nat k, result), c, clock)
    else if negb (length result <? Listing.pageSize (Listing.config c))
    then (Returned (Z.of_nat k, result), c, clock)
    else if negb (Listing.checkMemoryUsage heapUsed c clock)
    then (Returned (Z.of_nat k, result), c, S clock)
    else
      match allNodes !! k with
      | None => (Thrown undefinedIdError, c, S clock)
      | Some node =>
          if Listing.shouldProcessNode c node then
            Listing.chunkLoop heapUsed fuel allNodes (Z.of_nat (S k))
              (result ++ [node])
              (Listing.mkClient (Listing.config c)
                 ({[ id node ]} ∪ Listing.processedNodes c))
              (S clock)
          else
            Listing.chunkLoop heapUsed fuel allNodes (Z.of_nat (S k))
              result c (S clock)
      end.
Proof.
  cbn [Listing.chunkLoop].
  replace (Z.of_nat k <? Z.of_nat (length allNodes))%Z
    with (k <? length allNodes)
    by (destruct (Nat.ltb_spec k (length allNodes));
        destruct (Z.ltb_spec (Z.of_nat k) (Z.of_nat (length allNodes)));
        lia || reflexivity).
  replace (0 <=? Z.of_nat k)%Z with true
    by (symmetry; apply Z.leb_le; lia).
  rewrite Nat2Z.id.
  replace (Z.of_nat k + 1)%Z with (Z.of_nat (S k)) by lia.
  reflexivity.
Qed.

(** From a natural index the loop returns, with an index that went up
    and a result that took, in order, some of the nodes it went over. *)
Lemma chunkLoop_safe (allNodes : list SceneNode) :
  forall fuel k result c clock,
    length allNodes < k + fuel ->
    length result <= Listing.pageSize (Listing.config c) ->
    exists next picked c' clock',
      Listing.chunkLoop heapUsed fuel allNodes (Z.of_nat k) result c clock
      = (Returned (Z.of_nat next, result ++ picked), c', clock')
      /\ k <= next
      /\ picked `sublist_of` take (next - k) (drop k allNodes)
      /\ length (result ++ picked) <= Listing.pageSize (Listing.config c)
      /\ Listing.config c' = Listing.config c
      /\ Listing.processedNodes c ⊆ Listing.processedNodes c'.
Proof.
  induction fuel as [|fuel IH]; intros k result c clock Hfuel Hpage.
  - exists k, [], c, clock. simpl. rewrite app_nil_r, Nat.sub_diag.
    repeat split; try reflexivity; try constructor; exact Hpage.
  - rewrite chunkLoop_nat.
    assert (exists next picked c' clock',
               (Returned (Z.of_nat k, result), c, clock)
               = (Returned (Z.of_nat next, result ++ picked), c', clock')
               /\ k <= next
               /\ picked `sublist_of` take (next - k) (drop k allNodes)
               /\ length (result ++ picked)
                  <= Listing.pageSize (Listing.config c)
               /\ Listing.config c' = Listing.config c
               /\ Listing.processedNodes c ⊆ Listing.processedNodes c')
      as Hstop.
    { exists k, [], c, clock. rewrite app_nil_r, Nat.sub_diag.
      repeat split; try reflexivity; try constructor; exact Hpage. }
    destruct (Nat.ltb_spec k (length allNodes)) as [Hk|Hk]; [|exact Hstop].
    destruct (Nat.ltb_spec (length result)
                (Listing.pageSize (Listing.config c)))
      as [Hroom|Hfull]; [|exact Hstop].
    cbn [negb].
    destruct (Listing.checkMemoryUsage heapUsed c clock).
    2:{ exists k, [], c, (S clock). simpl. rewrite app_nil_r, Nat.sub_diag.
        repeat split; try reflexivity; try constructor; exact Hpage. }
    cbn [negb].
    destruct (allNodes !! k) as [node|] eqn:Hnode.
    2:{ apply lookup_ge_None in Hnode. lia. }
    pose proof (drop_S _ _ _ Hnode) as Hdrop.
    destruct (Listing.shouldProcessNode c node).
    + destruct (IH (S k) (result ++ [node])
                   (Listing.mkClient (Listing.config c)
                      ({[ id node ]} ∪ Listing.processedNodes c))
                   (S clock))
        as (next & picked & c' & clock' & Heq & Hle & Hsub & Hlen & Hcfg & Hset).
      { lia. }
      { rewrite length_app. simpl. lia. }
      exists next, (node :: picked), c', clock'.
      rewrite Heq, <- app_assoc. simpl.
      repeat split; try assumption; try lia.
      * replace (next - k) with (S (next - S k)) by lia.
        rewrite Hdrop. simpl. now constructor.
      * rewrite <- app_assoc in Hlen. exact Hlen.
      * etransitivity; [|exact Hset]. simpl. apply union_subseteq_r.
    + destruct (IH (S k) result c (S clock))
        as (next & picked & c' & clock' & Heq & Hle & Hsub & Hlen & Hcfg & Hset);
        [lia | exact Hpage |].
      exists next, picked, c', clock'. rewrite Heq.
      repeat split; try assumption; try lia.
      replace (next - k) with (S (next - S k)) by lia.
      rewrite Hdrop. simpl. now constructor.
Qed.

(** X21. From a natural start index [processNodeChunk] never throws;
    it returns at most [pageSize] nodes, which are, in the order of the
    list, some of the nodes between the start index and the index it
    stopped at; it reports more data exactly when that index is short of
    the end, and then hands the index out as the cursor. *)
Theorem processNodeChunk_page (c : Listing.ChunkedFigmaClient) (clock : nat)
        (allNodes : list SceneNode) (start : nat) :
  exists r c' clock' next,
    Listing.processNodeChunk heapUsed c clock allNodes
                             (Some (Z.of_nat start))
    = (Returned r, c', clock')
    /\ length (nodes r) <= Listing.pageSize (Listing.config c)
    /\ start <= next
    /\ nodes r `sublist_of` take (next - start) (drop start allNodes)
    /\ hasMore r = (next <? length allNodes)
    /\ nextCursor r = (if next <? length allNodes
                       then Some (toString next) else None)
    /\ Listing.config c' = Listing.config c
    /\ Listing.processedNodes c ⊆ Listing.processedNodes c'.
Proof.
  unfold Listing.processNodeChunk.
  destruct (chunkLoop_safe allNodes (S (length allNodes)) start [] c clock)
    as (next & picked & c' & clock' & Heq & Hle & Hsub & Hlen & Hcfg & Hset);
    [lia | simpl; lia |].
  rewrite Heq. simpl app in *.
  assert ((Z.of_nat next <? Z.of_nat (length allNodes))%Z
          = (next <? length allNodes)) as ->
      by (destruct (Nat.ltb_spec next (length allNodes));
          destruct (Z.ltb_spec (Z.of_nat next) (Z.of_nat (length allNodes)));
          lia || reflexivity).
  eexists _, c', (S clock'), next. split; [reflexivity|].
  cbn [nodes hasMore nextCursor].
  repeat split; try assumption.
  unfold toStringZ.
  replace (Z.of_nat next <? 0)%Z with false
    by (symmetry; apply Z.ltb_ge; lia).
  now rewrite Nat2Z.id.
Qed.

End ListingFacts.

Section ListingResume.

Variable heapUsed : nat -> N.

Lemma chunkLoop_all (allNodes : list SceneNode) (cfg : Listing.ChunkConfig) :
  Listing.nodeTypes cfg = None ->
  (forall set t,
      Listing.checkMemoryUsage heapUsed (Listing.mkClient cfg set) t = true) ->
  forall fuel k result set clock,
    length allNodes < k + fuel ->
    length result <= Listing.pageSize cfg ->
    NoDup (map id (drop k allNodes)) ->
    (forall n, n ∈ drop k allNodes -> id n ∉ set) ->
    exists set' clock',
      Listing.chunkLoop heapUsed fuel allNodes (Z.of_nat k) result
                        (Listing.mkClient cfg set) clock
      = (Returned
           (Z.of_nat (k + Nat.min (Listing.pageSize cfg - length result)
                                  (length allNodes - k)),
            result ++ take (Nat.min (Listing.pageSize cfg - length result)
                                    (length allNodes - k))
                           (drop k allNodes)),
         Listing.mkClient cfg set', clock')
      /\ forall n,
          n ∈ drop (k + Nat.min (Listing.pageSize cfg - length result)
                                (length allNodes - k)) allNodes ->
          id n ∉ set'.
Proof.
  intros Hty Hmem.
  induction fuel as [|fuel IH]; intros k result set clock Hfuel Hpage Hnd Hfresh.
  - replace (length allNodes - k) with 0 by lia.
    rewrite Nat.min_0_r, Nat.add_0_r. simpl. rewrite app_nil_r.
    exists set, clock. split; [reflexivity | exact Hfresh].
  - rewrite chunkLoop_nat. cbn [Listing.config].
    destruct (Nat.ltb_spec k (length allNodes)) as [Hk|Hk].
    2:{ replace (length allNodes - k) with 0 by lia.
        rewrite Nat.min_0_r, Nat.add_0_r. simpl. rewrite app_nil_r.
        exists set, clock. split; [reflexivity | exact Hfresh]. }
    destruct (Nat.ltb_spec (length result) (Listing.pageSize cfg))
      as [Hroom|Hfull].
    2:{ replace (Listing.pageSize cfg - length result) with 0 by lia.
        rewrite Nat.min_0_l, Nat.add_0_r. simpl. rewrite app_nil_r.
        exists set, clock. split; [reflexivity | exact Hfresh]. }
    rewrite Hmem. cbn [negb].
    destruct (allNodes !! k) as [node|] eqn:Hnode.
    2:{ apply lookup_ge_None in Hnode. lia. }
    pose proof (drop_S _ _ _ Hnode) as Hdrop.
    rewrite Hdrop in Hnd, Hfresh. simpl in Hnd.
    apply NoDup_cons in Hnd as [Hnotin Hnd].
    assert (Listing.shouldProcessNode (Listing.mkClient cfg set) node = true)
      as ->.
    { unfold Listing.shouldProcessNode. cbn [Listing.processedNodes Listing.config].
      rewrite Hty. rewrite bool_decide_eq_false_2; [reflexivity|].
      apply Hfresh. left. }
    cbn [Listing.config Listing.processedNodes].
    destruct (IH (S k) (result ++ [node]) ({[ id node ]} ∪ set) (S clock))
      as (set' & clock' & Heq & Hrest).
    + lia.
    + rewrite length_app. simpl. lia.
    + exact Hnd.
    + intros n Hn Hin. apply elem_of_union in Hin as [Hin|Hin].
      * apply elem_of_singleton in Hin. apply Hnotin. rewrite <- Hin.
        apply list_elem_of_fmap. now exists n.
      * revert Hin. apply Hfresh. now right.
    + exists set', clock'.
      assert (length (result ++ [node]) = S (length result)) as Hlen
          by (rewrite length_app; simpl; lia).
      rewrite Hlen in Heq, Hrest.
      replace (Nat.min (Listing.pageSize cfg - length result)
                       (length allNodes - k))
        with (S (Nat.min (Listing.pageSize cfg - S (length result))
                         (length allNodes - S k))) by lia.
      rewrite Hdrop. simpl take. rewrite <- app_assoc in Heq. simpl in Heq.
      replace (k + S (Nat.min (Listing.pageSize cfg - S (length result))
                              (length allNodes - S k)))
        with (S k + Nat.min (Listing.pageSize cfg - S (length result))
                            (length allNodes - S k)) by lia.
      split; [exact Heq | exact Hrest].
Qed.

(** X22. Resuming works on this client: while the heap stays under
    the limit, with no type list and with ids that are distinct and new
    to the client from the start index on, a call returns exactly the
    next [pageSize] nodes of the list, reports more data when nodes are
    left after them, and hands out as cursor the index of the first node
    left, whose ids are still new to the client it leaves. *)
Theorem processNodeChunk_resumes (cfg : Listing.ChunkConfig)
        (set : gset string) (clock : nat) (allNodes : list SceneNode)
        (start : nat) :
  Listing.nodeTypes cfg = None ->
  (forall set' t,
      Listing.checkMemoryUsage heapUsed (Listing.mkClient cfg set') t = true) ->
  NoDup (map id (drop start allNodes)) ->
  (forall n, n ∈ drop start allNodes -> id n ∉ set) ->
  exists r set' clock',
    Listing.processNodeChunk heapUsed (Listing.mkClient cfg set) clock
                             allNodes (Some (Z.of_nat start))
    = (Returned r, Listing.mkClient cfg set', clock')
    /\ nodes r = take (Listing.pageSize cfg) (drop start allNodes)
    /\ hasMore r = (start + Listing.pageSize cfg <? length allNodes)
    /\ nextCursor r
       = (if start + Listing.pageSize cfg <? length allNodes
          then Some (toString (start + Listing.pageSize cfg)) else None)
    /\ forall n, n ∈ drop (start + Listing.pageSize cfg) allNodes ->
                 id n ∉ set'.
Proof.
  intros Hty Hmem Hnd Hfresh. unfold Listing.processNodeChunk.
  destruct (chunkLoop_all allNodes cfg Hty Hmem (S (length allNodes))
              start [] set clock)
    as (set' & clock' & Heq & Hrest); [lia | simpl; lia | exact Hnd
                                       | exact Hfresh |].
  rewrite Heq. cbn [length app] in *. rewrite Nat.sub_0_r in *.
  set (m := Nat.min (Listing.pageSize cfg) (length allNodes - start)) in *.
  assert ((Z.of_nat (start + m) <? Z.of_nat (length allNodes))%Z
          = (start + Listing.pageSize cfg <? length allNodes)) as ->.
  { destruct (Nat.ltb_spec (start + Listing.pageSize cfg) (length allNodes));
      destruct (Z.ltb_spec (Z.of_nat (start + m))
                  (Z.of_nat (length allNodes))); lia || reflexivity. }
  eexists _, set', (S clock'). split; [reflexivity|].
  cbn [nodes hasMore nextCursor]. repeat split.
  - unfold m. destruct (Nat.min_spec (Listing.pageSize cfg)
                          (length allNodes - start)) as [[_ ->]|[Hle ->]];
      [reflexivity|].
    rewrite !take_ge; [reflexivity| |]; rewrite length_drop; lia.
  - destruct (Nat.ltb_spec (start + Listing.pageSize cfg) (length allNodes))
      as [Hlt|_]; [|reflexivity].
    unfold toStringZ.
    replace (Z.of_nat (start + m) <? 0)%Z with false
      by (symmetry; apply Z.ltb_ge; lia).
    rewrite Nat2Z.id. do 2 f_equal. lia.
  - intros n Hn.
    destruct (Nat.le_gt_cases (Listing.pageSize cfg) (length allNodes - start))
      as [Hle|Hgt].
    + apply Hrest. replace (start + m) with (start + Listing.pageSize cfg)
        by lia. exact Hn.
    + rewrite drop_ge in Hn by lia. inversion Hn.
Qed.

(** X23. On this client a cursor that [parseInt] cannot read ends the
    listing without a word: the index is NaN, the loop does not run, and
    the call returns no node and no more data, leaving the client as it
    was. *)
Theorem listing_malformed_cursor (c : Listing.ChunkedFigmaClient) (clock : nat)
        (document : DocumentNode) (cursor : string) :
  cursor <> EmptyString ->
  parseInt cursor = None ->
  Listing.getFileInfoChunked heapUsed c clock (FetchData (Some document))
                             (Some cursor)
  = (Returned {| nodes := [];
                 memoryUsage := Listing.heapMB heapUsed clock;
                 nextCursor := None;
                 hasMore := false |}, c, S clock).
Proof.
  intros Hne Hnan. unfold Listing.getFileInfoChunked.
  assert (cursorIndex (Some cursor) = None) as ->
      by (destruct cursor; [contradiction | exact Hnan]).
  reflexivity.
Qed.

(** X24. On this client a negative cursor makes the call throw: with
    room in the page and the heap under the limit, the loop reads the
    node at a negative index, which is undefined, and reading its [id]
    throws, whatever the document, even an empty one. *)
Theorem listing_negative_cursor (c : Listing.ChunkedFigmaClient) (clock : nat)
        (document : DocumentNode) (cursor : string) (z : Z) :
  parseInt cursor = Some z ->
  (z < 0)%Z ->
  1 <= Listing.pageSize (Listing.config c) ->
  Listing.checkMemoryUsage heapUsed c clock = true ->
  Listing.getFileInfoChunked heapUsed c clock (FetchData (Some document))
                             (Some cursor)
  = (Thrown undefinedIdError, c, S clock).
Proof.
  intros Hz Hneg Hpage Hmem. unfold Listing.getFileInfoChunked.
  rewrite (cursorIndex_parse _ _ Hz). unfold Listing.processNodeChunk.
  cbn [Listing.chunkLoop length].
  replace (z <? Z.of_nat (length (Listing.getAllNodes document)))%Z
    with true by (symmetry; apply Z.ltb_lt; lia).
  replace (0 <? Listing.pageSize (Listing.config c)) with true
    by (symmetry; apply Nat.ltb_lt; lia).
  rewrite Hmem.
  replace (0 <=? z)%Z with false by (symmetry; apply Z.leb_gt; lia).
  reflexivity.
Qed.

End ListingResume.

(** ** Loading the access token *)

Lemma splitOn_plain (sep : ascii) (a : string) :
  hasChar sep a = false -> splitOn sep a = [a].
Proof.
  induction a as [|c a IH]; intros Hno; [reflexivity|].
  simpl in *. apply orb_false_iff in Hno as [Hc Ha].
  rewrite Hc, (IH Ha). reflexivity.
Qed.

Lemma splitOn_cut (sep : ascii) (a b : string) :
  hasChar sep a = false ->
  splitOn sep (a ++ String sep b) = a :: splitOn sep b.
Proof.
  induction a as [|c a IH]; intros Hno; simpl in *.
  - now rewrite Ascii.eqb_refl.
  - apply orb_false_iff in Hno as [Hc Ha]. rewrite Hc, (IH Ha). reflexivity.
Qed.

Lemma find_first {A : Type} (f : A -> bool) (pre post : list A) (x : A) :
  Forall (fun y => f y = false) pre -> f x = true ->
  find f (pre ++ x :: post) = Some x.
Proof.
  intros Hpre Hx. induction Hpre as [|y pre Hy _ IH]; simpl.
  - now rewrite Hx.
  - now rewrite Hy.
Qed.

Lemma prefix_config (rest : string) :
  String.prefix "--config=" ("--config=" ++ rest)%string = true.
Proof. simpl. destruct rest; reflexivity. Qed.

Section LoaderFacts.

Variable tokenInFile : string -> option string.

(** X25. Only the first argument that starts with [--config=] counts,
    and the path it gives stops at the next [=]: the arguments after it
    and whatever follows a second [=] are ignored, so a path that holds
    an [=] is cut short. *)
Theorem loadConfig_path (pre post : list string) (a b : string)
        (envToken : option string) :
  Forall (fun arg => String.prefix "--config=" arg = false) pre ->
  hasChar "="%char a = false ->
  loadConfig tokenInFile (pre ++ ("--config=" ++ a)%string :: post) envToken
  = loadConfig tokenInFile ["--config=" ++ a]%string envToken
  /\ loadConfig tokenInFile
       (pre ++ ("--config=" ++ a ++ String "="%char b)%string :: post) envToken
     = loadConfig tokenInFile ["--config=" ++ a]%string envToken
  /\ configPathOf ("--config=" ++ a)%string = Some a.
Proof.
  intros Hpre Ha.
  assert (configPathOf ("--config=" ++ a)%string = Some a) as Hpath.
  { unfold configPathOf.
    change ("--config=" ++ a)%string
      with ("--config" ++ String "="%char a)%string.
    rewrite (splitOn_cut "="%char "--config" a eq_refl).
    now rewrite (splitOn_plain _ _ Ha). }
  assert (configPathOf ("--config=" ++ a ++ String "="%char b)%string = Some a)
    as Hcut.
  { unfold configPathOf.
    change ("--config=" ++ a ++ String "="%char b)%string
      with ("--config" ++ String "="%char (a ++ String "="%char b))%string.
    rewrite (splitOn_cut "="%char "--config" (a ++ String "="%char b) eq_refl).
    now rewrite (splitOn_cut _ _ _ Ha). }
  unfold loadConfig.
  rewrite !find_first by (assumption || apply prefix_config).
  cbn [find]. rewrite prefix_config, Hpath, Hcut. repeat split.
Qed.

(** X26. [loadConfig] never returns an empty token: what it returns is
    a non-empty token found in a file or the non-empty token of the
    environment, and it throws, with its one message, only when the
    environment holds no token or an empty one. *)
Theorem loadConfig_token (argv : list string) (envToken : option string) :
  match loadConfig tokenInFile argv envToken with
  | Returned token =>
      token <> EmptyString
      /\ (envToken = Some token
          \/ exists path, tokenInFile path = Some token)
  | Thrown message =>
      message = tokenRequired /\ nonEmpty envToken = None
  end.
Proof.
  assert (match (match nonEmpty envToken with
                 | Some token => Returned token
                 | None => Thrown tokenRequired
                 end) with
          | Returned token =>
              token <> EmptyString
              /\ (envToken = Some token
                  \/ exists path, tokenInFile path = Some token)
          | Thrown message =>
              message = tokenRequired /\ nonEmpty envToken = None
          end) as Henv.
  { destruct envToken as [[|c t]|]; simpl; auto. }
  unfold loadConfig.
  destruct (find (String.prefix "--config=") argv) as [configArg|];
    [|exact Henv].
  destruct (configPathOf configArg) as [path|]; simpl; [|exact Henv].
  destruct (tokenInFile path) as [[|c t]|] eqn:Hfile; simpl;
    try exact Henv.
  split; [discriminate|]. right. now exists path.
Qed.

End LoaderFacts.

(** ** The server across requests *)

Section ServerFacts.

Context `{JsonByteLength}.

(** What one request does to the client and what it answers. *)
Lemma handleGetFileData_step (c : ChunkedFigmaClient)
      (args : Server.GetFileDataArgs) (response : FetchOutcome) :
  clientConfig (snd (Server.handleGetFileData c args response))
  = clientConfig c
  /\ processedNodes (nodeProcessor c)
       ⊆ processedNodes
           (nodeProcessor (snd (Server.handleGetFileData c args response)))
  /\ length (Server.answeredNodes
               (fst (Server.handleGetFileData c args response)))
     <= pageSize (clientConfig c)
  /\ NoDup (map id (Server.answeredNodes
                      (fst (Server.handleGetFileData c args response))))
  /\ forall n,
      n ∈ Server.answeredNodes
            (fst (Server.handleGetFileData c args response)) ->
      (id n ∉ processedNodes (nodeProcessor c))
      /\ (id n ∈ processedNodes
            (nodeProcessor (snd (Server.handleGetFileData c args response)))).
Proof.
  assert (forall n : SceneNode, n ∈ @nil SceneNode ->
            (id n ∉ processedNodes (nodeProcessor c))
            /\ (id n ∈ processedNodes (nodeProcessor c))) as Hnil
      by (intros n Hn; inversion Hn).
  unfold Server.handleGetFileData.
  destruct (nonEmpty (Server.file_key args)); cbn [fst snd Server.answeredNodes];
    [|split; [reflexivity|]; split; [reflexivity|]; split; [simpl; lia|];
      split; [constructor | exact Hnil]].
  unfold getFileInfoChunked.
  destruct response as [[document|]|msg]; cbn [fst snd Server.answeredNodes];
    try (split; [reflexivity|]; split; [reflexivity|]; split; [simpl; lia|];
         split; [constructor | exact Hnil]).
  destruct (streamNodes c document (Server.cursor args)) as [r c'] eqn:Hcall.
  cbn [fst snd Server.answeredNodes].
  replace r with (fst (streamNodes c document (Server.cursor args)))
    by now rewrite Hcall.
  replace c' with (snd (streamNodes c document (Server.cursor args)))
    by now rewrite Hcall.
  clear Hcall r c'.
  unfold streamNodes. cbn [fst snd Server.answeredNodes nodes clientConfig
                           nodeProcessor].
  set (queue := skipToCursor (cursorIndex (Server.cursor args))
                  (entriesAt 0 (documentChildren document))).
  destruct (streamLoop_monotone (pageSize (clientConfig c))
              (queueWeight queue) (mkLoop (nodeProcessor c) queue []))
    as (_ & Hsub & _).
  destruct (streamLoop_dedup (pageSize (clientConfig c))
              (queueWeight queue) (nodeProcessor c) queue) as (Hnd & Hres).
  repeat split; try assumption.
  - apply streamLoop_page_bound. simpl. lia.
  - now apply Hres.
  - now apply Hres.
Qed.

(** X27. The handler never passes a configuration to the client, so
    the [pageSize], [maxMemoryMB] and [nodeTypes] of a request have no
    effect: whatever the requests, the client keeps the configuration it
    started with and every answer holds at most that many nodes (100 for
    the client the server builds). *)
Theorem serve_keeps_configuration (c : ChunkedFigmaClient)
        (requests : list (Server.GetFileDataArgs * FetchOutcome)) :
  clientConfig (snd (Server.serve c requests)) = clientConfig c
  /\ Forall (fun out =>
               length (Server.answeredNodes out) <= pageSize (clientConfig c))
            (fst (Server.serve c requests))
  /\ pageSize (clientConfig defaultClient) = 100.
Proof.
  split; [|split; [|reflexivity]].
  - revert c. induction requests as [|[args response] requests IH];
      intros c; [reflexivity|].
    simpl.
    destruct (Server.handleGetFileData c args response) as [out c'] eqn:Hh.
    specialize (IH c').
    destruct (Server.serve c' requests) as [outs c''].
    simpl in *. rewrite IH.
    pose proof (handleGetFileData_step c args response) as (Hcfg & _).
    now rewrite Hh in Hcfg.
  - revert c. induction requests as [|[args response] requests IH];
      intros c; [constructor|].
    simpl.
    destruct (Server.handleGetFileData c args response) as [out c'] eqn:Hh.
    specialize (IH c').
    destruct (Server.serve c' requests) as [outs c''].
    pose proof (handleGetFileData_step c args response)
      as (Hcfg & _ & Hlen & _).
    rewrite Hh in Hcfg, Hlen. simpl in *.
    constructor; [exact Hlen|]. now rewrite Hcfg in IH.
Qed.

(** X28. For the same reason the dedup set lives as long as the
    server: over all the requests a server answers, no node id is
    returned twice, and none that the client had already admitted;
    asking again for a document answers only with nodes that were never
    returned. *)
Theorem serve_never_repeats (c : ChunkedFigmaClient)
        (requests : list (Server.GetFileDataArgs * FetchOutcome)) :
  NoDup (map id (concat (map Server.answeredNodes
                             (fst (Server.serve c requests)))))
  /\ forall n,
      n ∈ concat (map Server.answeredNodes (fst (Server.serve c requests))) ->
      id n ∉ processedNodes (nodeProcessor c).
Proof.
  revert c. induction requests as [|[args response] requests IH]; intros c.
  - simpl. split; [constructor | intros n Hn; inversion Hn].
  - simpl.
    pose proof (handleGetFileData_step c args response)
      as (_ & Hsub & _ & Hnd & Hres).
    destruct (Server.handleGetFileData c args response) as [out c'].
    destruct (IH c') as [IHnd IHfresh].
    destruct (Server.serve c' requests) as [outs c''].
    cbn [fst snd map concat] in *. split.
    + rewrite map_app. apply NoDup_app. split; [exact Hnd|].
      split; [|exact IHnd].
      intros i Hi Hi'.
      apply list_elem_of_fmap in Hi as (n & -> & Hn).
      apply list_elem_of_fmap in Hi' as (n' & Heq & Hn').
      apply (IHfresh n' Hn'). rewrite <- Heq. now apply Hres.
    + intros n Hn. apply elem_of_app in Hn as [Hn|Hn].
      * now apply Hres.
      * intros Hold. apply (IHfresh n Hn). now apply Hsub.
Qed.

(** The handler throws only for a missing or empty [file_key],
    before any request is made; every failure of the client becomes an
    error content whose text is prefixed once more, so a failed HTTP
    request reads "Figma API error: Figma API error: ..." and a body
    without document reads "Figma API error: Invalid response from Figma
    API"; anything else is answered with the chunk. *)
Lemma handleGetFileData_outcomes (c : ChunkedFigmaClient)
        (args : Server.GetFileDataArgs) (response : FetchOutcome) :
  match nonEmpty (Server.file_key args), response with
  | None, _ =>
      Server.handleGetFileData c args response
      = (Server.McpErrorThrown Server.InvalidParams "file_key is required", c)
  | Some _, FetchAxiosError message =>
      Server.handleGetFileData c args response
      = (Server.ToolErrorText
           ("Figma API error: Figma API error: " ++ message)%string, c)
  | Some _, FetchData None =>
      Server.handleGetFileData c args response
      = (Server.ToolErrorText
           "Figma API error: Invalid response from Figma API", c)
  | Some _, FetchData (Some document) =>
      Server.handleGetFileData c args response
      = (Server.ToolContent
           (fst (streamNodes c document (Server.cursor args))),
         snd (streamNodes c document (Server.cursor args)))
  end.
Proof.
  unfold Server.handleGetFileData.
  destruct (nonEmpty (Server.file_key args)); [|reflexivity].
  destruct response as [[document|]|message]; reflexivity.
Qed.

End ServerFacts.

(** ** The further statements at work on the sample data *)

Lemma streamNodes_type_filter_sample :
  nodeTypes (config (nodeProcessor typedClient)) = Some ["TEXT"; "FRAME"]
  /\ Forall (fun n => type n ∈ ["TEXT"; "FRAME"])
            (nodes (fst (streamNodes (H := oneMB) typedClient nestedDocument
                           None))).
Proof.
  split; [reflexivity|]. apply Forall_forall.
  apply (@streamNodes_type_filter oneMB typedClient nestedDocument None
           ["TEXT"; "FRAME"]).
  reflexivity.
Defined.

Lemma streamNodes_depth_filter_sample :
  maxDepth (config (nodeProcessor shallowClient)) = Some 1
  /\ Forall (fun n =>
               exists m depth,
                 (m, depth) ∈ documentEntries nestedDocument
                 /\ depth <= 1
                 /\ n = transformNode (config (nodeProcessor shallowClient)) m)
            (nodes (fst (streamNodes (H := oneMB) shallowClient nestedDocument
                           None))).
Proof.
  split; [reflexivity|]. apply Forall_forall.
  apply (@streamNodes_depth_filter oneMB shallowClient nestedDocument None 1).
  reflexivity.
Defined.

Lemma streamNodes_stop_reason_sample :
  length (nodes (fst (streamNodes (H := oneMB) pagedClient threeFrames None)))
  = pageSize (clientConfig pagedClient)
  \/ (sizeLimit (config (nodeProcessor pagedClient))
      <= memoryUsage (fst (streamNodes (H := oneMB) pagedClient threeFrames
                             None)))%Q.
Proof.
  apply (@streamNodes_stop_reason oneMB pagedClient threeFrames None).
  reflexivity.
Defined.

Lemma streamNodes_nothing_new_sample :
  nodes (fst (streamNodes (H := oneMB) seasonedClient nestedDocument None)) = []
  /\ snd (streamNodes (H := oneMB) seasonedClient nestedDocument None)
     = seasonedClient.
Proof.
  apply (@streamNodes_nothing_new oneMB seasonedClient nestedDocument None).
  intros n Hn. cbv [preorderAll nestedDocument documentChildren flat_map
                    preorder branch leaf app] in Hn.
  repeat (apply elem_of_cons in Hn as [->|Hn];
          [apply (bool_decide_unpack _); vm_compute; exact I|]).
  inversion Hn.
Defined.

Lemma getFileInfoChunked_shares_config_sample :
  config (nodeProcessor
            (snd (getFileInfoChunked (H := oneMB) defaultClient
                    (FetchData (Some threeFrames)) None
                    (Some (pageSizeOnly 2)))))
  = clientConfig
      (snd (getFileInfoChunked (H := oneMB) defaultClient
              (FetchData (Some threeFrames)) None (Some (pageSizeOnly 2))))
  /\ clientConfig
       (snd (getFileInfoChunked (H := oneMB) defaultClient
               (FetchData (Some threeFrames)) None (Some (pageSizeOnly 2))))
     = mergeConfig (clientConfig defaultClient) (pageSizeOnly 2).
Proof.
  apply (@getFileInfoChunked_shares_config oneMB defaultClient
           (FetchData (Some threeFrames)) None (Some (pageSizeOnly 2))).
  reflexivity.
Defined.

Lemma getFileInfoChunked_page_zero_sample :
  exists r,
    fst (getFileInfoChunked (H := oneMB) defaultClient
           (FetchData (Some threeFrames)) None (Some (pageSizeOnly 0)))
    = Returned r
    /\ nodes r = []
    /\ memoryUsage r = 0%Q
    /\ hasMore r
       = (0 <? length (skipToCursor (cursorIndex None)
                         (entriesAt 0 (documentChildren threeFrames)))).
Proof.
  apply (@getFileInfoChunked_page_zero oneMB defaultClient threeFrames None
           (pageSizeOnly 0)).
  reflexivity.
Defined.

Lemma getFileNodes_requests_sample :
  concat (snd (getFileNodes echoFetch defaultClient manyIds)) = manyIds
  /\ length (snd (getFileNodes echoFetch defaultClient manyIds)) = 3.
Proof.
  destruct (getFileNodes_requests echoFetch defaultClient manyIds)
    as (_ & Hcat & _).
  - reflexivity.
  - intros param. now eexists.
  - split; [exact Hcat | reflexivity].
Defined.


Lemma getFileNodes_error_sample :
  exists ch,
    last (snd (getFileNodes downFetch defaultClient manyIds)) = Some ch
    /\ downFetch (joinComma ch) = Thrown "Network Error".
Proof.
  destruct (getFileNodes_error downFetch defaultClient manyIds
              "Network Error") as [(Hlimit & _)|Hlast].
  - reflexivity.
  - discriminate Hlimit.
  - exact Hlast.
Defined.

Lemma limit_reached_blocks_getFileNodes_sample :
  getFileNodes echoFetch
    (snd (streamNodes (H := oneMB) twoMBClient nestedDocument None))
    ["1:1"]
  = (Thrown "Memory limit exceeded while processing nodes", []).
Proof.
  apply (@limit_reached_blocks_getFileNodes oneMB nat echoFetch twoMBClient
           nestedDocument None ["1:1"]).
  - reflexivity.
  - vm_compute. lia.
  - discriminate.
Defined.

Lemma processNodeChunk_resumes_sample :
  exists r set' clock',
    Listing.processNodeChunk calmHeap (Listing.mkClient listingConfig ∅) 0
                             (Listing.getAllNodes nestedDocument)
                             (Some (Z.of_nat 2))
    = (Returned r, Listing.mkClient listingConfig set', clock')
    /\ nodes r = take 2 (drop 2 (Listing.getAllNodes nestedDocument))
    /\ nextCursor r = Some "4".
Proof.
  destruct (processNodeChunk_resumes calmHeap listingConfig ∅ 0
              (Listing.getAllNodes nestedDocument) 2)
    as (r & set' & clock' & Heq & Hnodes & _ & Hcursor & _).
  - reflexivity.
  - intros set' t. reflexivity.
  - apply (bool_decide_unpack _). vm_compute. exact I.
  - intros n _. apply not_elem_of_empty.
  - exists r, set', clock'. repeat split; assumption.
Defined.

Lemma listing_malformed_cursor_sample :
  Listing.getFileInfoChunked calmHeap (Listing.newClient None None None) 0
                             (FetchData (Some nestedDocument)) (Some "abc")
  = (Returned {| nodes := [];
                 memoryUsage := Listing.heapMB calmHeap 0;
                 nextCursor := None;
                 hasMore := false |},
     Listing.newClient None None None, 1).
Proof.
  apply (listing_malformed_cursor calmHeap (Listing.newClient None None None)
           0 nestedDocument "abc").
  - discriminate.
  - reflexivity.
Defined.

Lemma listing_negative_cursor_sample :
  Listing.getFileInfoChunked calmHeap (Listing.newClient None None None) 0
                             (FetchData (Some nestedDocument)) (Some "-1")
  = (Thrown undefinedIdError, Listing.newClient None None None, 1).
Proof.
  apply (listing_negative_cursor calmHeap (Listing.newClient None None None)
           0 nestedDocument "-1" (-1)%Z).
  - reflexivity.
  - lia.
  - simpl. lia.
  - reflexivity.
Defined.

Lemma loadConfig_path_sample :
  loadConfig oneTokenFile
    ["node"; "index.js"; "--config=/etc/figma.json=old"; "--config=/tmp/x"]
    None
  = Returned "figd_sample".
Proof.
  destruct (loadConfig_path oneTokenFile ["node"; "index.js"]
              ["--config=/tmp/x"] "/etc/figma.json" "old" None)
    as (_ & Hcut & _).
  - repeat constructor.
  - reflexivity.
  - exact Hcut.
Defined.
